(** * Named GPG keys of the Vault GPG plugin: [gpg/path_keys.go]

    A shallow embedding of the key handlers (create, read, delete), of the
    private-key serializer that keeps existing signatures, and of the
    collaborators they call (the OpenPGP library, the JSON codec and the
    logical storage), followed by the properties the specification states
    about them. *)

From Stdlib Require Import ZArith NArith Lia Ascii String List.
From Stdlib Require Init.Byte.
From stdpp Require Import gmap strings list fin_maps sorting.

Local Open Scope Z_scope.

(** ** Go values *)

(** A Go [error] value is represented by its message. *)
Definition error := string.

(** [[]byte] *)
Definition bytes := list Byte.byte.

(** What a Go call can do: return a value, return a non-nil [error], or
    panic at run time (index out of range). *)
Inductive result (A : Type) : Type :=
  | Ok (a : A)
  | Err (e : error)
  | Panic (msg : string).
Arguments Ok {A} a.
Arguments Err {A} e.
Arguments Panic {A} msg.

(** ** [encoding/hex] *)

Module hex.

Definition hextable : string := "0123456789abcdef".

Definition digit (n : N) : ascii :=
  match String.get (N.to_nat n) hextable with
  | Some c => c
  | None => "0"%char
  end.

(** [dst[j] = hextable[v>>4]; dst[j+1] = hextable[v&0x0f]] *)
Fixpoint EncodeToString (src : bytes) : string :=
  match src with
  | [] => EmptyString
  | v :: rest =>
      String (digit (N.shiftr (Byte.to_N v) 4))
        (String (digit (N.land (Byte.to_N v) 15)) (EncodeToString rest))
  end.

(** The characters a lowercase hexadecimal string may contain. *)
Definition lower_hex_char (c : ascii) : bool :=
  bool_decide (c ∈ list_ascii_of_string hextable).

Fixpoint all_chars (p : ascii -> bool) (s : string) : bool :=
  match s with
  | EmptyString => true
  | String c rest => p c && all_chars p rest
  end.

End hex.

(** ** [io.Writer] *)

(** [Write] returns the writer after the call and the error of the call
    ([None] for [nil]). *)
Class Writer (W : Type) := Write : W -> bytes -> W * option error.

(** [bytes.Buffer]: every write appends and none fails. *)
Definition Buffer := bytes.

#[export] Instance Buffer_Writer : Writer Buffer :=
  fun buf p => (buf ++ p, None).

(** ** The OpenPGP packets ([golang.org/x/crypto/openpgp/packet]) *)

(** The packet types of the library and their wire encodings are taken as
    given.  An encoding can fail (the library refuses, for instance, a
    private key whose secret part is still passphrase-protected).
    [Fingerprint] is the [[20]byte] field of a public key. *)
Class Packets := {
  packet_PublicKey : Type;
  packet_PrivateKey : Type;
  packet_UserId : Type;
  packet_Signature : Type;
  Fingerprint : packet_PublicKey -> bytes;
  Fingerprint_len : forall pk, length (Fingerprint pk) = 20%nat;
  PublicKey_encoding : packet_PublicKey -> error + bytes;
  PrivateKey_encoding : packet_PrivateKey -> error + bytes;
  UserId_encoding : packet_UserId -> error + bytes;
  Signature_encoding : packet_Signature -> error + bytes;
}.

Section Entities.
Context `{Packets}.

(** One packet on the wire. *)
Inductive Packet : Type :=
  | PrivateKeyPacket (k : packet_PrivateKey)
  | PublicKeyPacket (k : packet_PublicKey)
  | UserIdPacket (u : packet_UserId)
  | SignaturePacket (s : packet_Signature).

Definition encoding (p : Packet) : error + bytes :=
  match p with
  | PrivateKeyPacket k => PrivateKey_encoding k
  | PublicKeyPacket k => PublicKey_encoding k
  | UserIdPacket u => UserId_encoding u
  | SignaturePacket s => Signature_encoding s
  end.

(** [x.Serialize(w)]: encode the packet and write it; whichever of the
    two fails gives the error. *)
Definition Serialize `{Writer W} (p : Packet) (w : W) : W * option error :=
  match encoding p with
  | inl e => (w, Some e)
  | inr bs => Write w bs
  end.

(** [openpgp.Identity], [openpgp.Subkey], [openpgp.Entity].  A pointer
    that may be nil is an [option].  [Identities] is a Go map; it is kept
    as the list of its entries in the order a [range] over it visits
    them. *)
Record Identity := {
  UserId : packet_UserId;
  SelfSignature : packet_Signature;
}.

Record Subkey := {
  SubkeyPublicKey : packet_PublicKey;
  SubkeyPrivateKey : option packet_PrivateKey;
  Sig : packet_Signature;
}.

Record Entity := {
  PrimaryKey : packet_PublicKey;
  PrivateKey : option packet_PrivateKey;
  Identities : list (string * Identity);
  Subkeys : list Subkey;
}.

(** *** [serializePrivateWithoutSigning] *)

Section Serializer.
Context `{Writer W}.

(** [err = p.Serialize(w); if err != nil { return }] followed by the
    rest of the function. *)
Definition andThen (step : W * option error) (rest : W -> W * option error)
  : W * option error :=
  match step with
  | (w, Some e) => (w, Some e)
  | (w, None) => rest w
  end.

(** [for _, ident := range e.Identities] *)
Fixpoint serializeIdentities (ids : list (string * Identity)) (w : W)
  : W * option error :=
  match ids with
  | [] => (w, None)
  | (_, ident) :: rest =>
      andThen (Serialize (UserIdPacket (UserId ident)) w) (fun w =>
      andThen (Serialize (SignaturePacket (SelfSignature ident)) w) (fun w =>
      serializeIdentities rest w))
  end.

(** [for _, subkey := range e.Subkeys]; the loop carries
    [foundPrivateKey]. *)
Fixpoint serializeSubkeys (sks : list Subkey) (foundPrivateKey : bool) (w : W)
  : W * bool * option error :=
  match sks with
  | [] => (w, foundPrivateKey, None)
  | subkey :: rest =>
      match SubkeyPrivateKey subkey with
      | Some pk =>
          match Serialize (PrivateKeyPacket pk) w with
          | (w, Some e) => (w, true, Some e)
          | (w, None) =>
              match Serialize (SignaturePacket (Sig subkey)) w with
              | (w, Some e) => (w, true, Some e)
              | (w, None) => serializeSubkeys rest true w
              end
          end
      | None =>
          match Serialize (SignaturePacket (Sig subkey)) w with
          | (w, Some e) => (w, foundPrivateKey, Some e)
          | (w, None) => serializeSubkeys rest foundPrivateKey w
          end
      end
  end.

Definition errNoPrivateKey : error := "No private key has been found".

Definition serializePrivateWithoutSigning (w : W) (e : Entity)
  : W * option error :=
  let afterPrimary (foundPrivateKey : bool) (w : W) :=
    andThen (serializeIdentities (Identities e) w) (fun w =>
    match serializeSubkeys (Subkeys e) foundPrivateKey w with
    | (w, _, Some err) => (w, Some err)
    | (w, foundPrivateKey, None) =>
        if negb foundPrivateKey then (w, Some errNoPrivateKey)
        else (w, None)
    end) in
  match PrivateKey e with
  | Some pk =>
      andThen (Serialize (PrivateKeyPacket pk) w) (afterPrimary true)
  | None => afterPrimary false w
  end.

(** *** The layout the specification describes *)

(** The packets of an entity in the order of the specification: the
    primary private key if present, each identity's user ID and then
    its self-signature, each subkey's private key if present and then
    its binding signature.  The signature packets are the ones the
    entity holds. *)
Definition identityPackets (ident : Identity) : list Packet :=
  [UserIdPacket (UserId ident); SignaturePacket (SelfSignature ident)].

Definition subkeyPrivatePackets (subkey : Subkey) : list Packet :=
  match SubkeyPrivateKey subkey with
  | Some pk => [PrivateKeyPacket pk; SignaturePacket (Sig subkey)]
  | None => [SignaturePacket (Sig subkey)]
  end.

Definition privatePackets (e : Entity) : list Packet :=
  match PrivateKey e with Some pk => [PrivateKeyPacket pk] | None => [] end
  ++ flat_map (fun i => identityPackets (snd i)) (Identities e)
  ++ flat_map subkeyPrivatePackets (Subkeys e).

(** Writing a list of packets one after the other, up to the first
    that fails. *)
Fixpoint emit (ps : list Packet) (w : W) : W * option error :=
  match ps with
  | [] => (w, None)
  | p :: rest => andThen (Serialize p w) (emit rest)
  end.

(** Private material: a primary private key or a subkey private key. *)
Definition subkeysCarryPrivateKey (sks : list Subkey) : bool :=
  existsb (fun sk => bool_decide (is_Some (SubkeyPrivateKey sk))) sks.

Definition carriesPrivateKey (e : Entity) : bool :=
  bool_decide (is_Some (PrivateKey e))
  || subkeysCarryPrivateKey (Subkeys e).

End Serializer.
End Entities.

(** ** The OpenPGP key functions ([golang.org/x/crypto/openpgp]) *)

(** The parsers, the generator and the signing serializer of the library
    are taken as given.  [NewEntity] draws its key from the system's
    randomness: a given [NewEntity] stands for one draw, and what is proved
    for every [NewEntity] holds for every draw.  [SerializePrivate] is the
    serializer that signs the identities and subkeys anew; it gives the
    bytes it writes.  [armor_Encode blockType body] is the armored text of
    [body]. *)
Class OpenPGP `{Packets} := {
  ReadKeyRing : bytes -> error + list Entity;
  ReadArmoredKeyRing : string -> error + list Entity;
  NewEntity : string -> string -> string -> Z -> error + Entity;
  SerializePrivate : Entity -> error + bytes;
  armor_Encode : string -> bytes -> string;
}.

Definition PublicKeyType : string := "PGP PUBLIC KEY BLOCK".

Section PublicSerializer.
Context `{Packets}.

Definition subkeyPublicPackets (subkey : Subkey) : list Packet :=
  [PublicKeyPacket (SubkeyPublicKey subkey); SignaturePacket (Sig subkey)].

(** The public components of an entity, in the words of the
    specification: primary public key, identities, self-signatures,
    subkey public parts, subkey signatures. *)
Definition publicPackets (e : Entity) : list Packet :=
  PublicKeyPacket (PrimaryKey e)
  :: flat_map (fun i => identityPackets (snd i)) (Identities e)
  ++ flat_map subkeyPublicPackets (Subkeys e).

(** Modelled from the spec: the library's [Entity.Serialize], which is
    not among the sources.  It writes the public components one after
    the other. *)
Definition Entity_Serialize `{Writer W} (e : Entity) (w : W) : W * option error :=
  emit (publicPackets e) w.

Definition isPrivatePacket (p : Packet) : bool :=
  match p with PrivateKeyPacket _ => true | _ => false end.

End PublicSerializer.

(** ** The storage collaborator ([logical.Storage]) *)

Record StorageEntry := {
  Key : string;
  Value : bytes;
}.

(** The three calls the key handlers make.  [Get] gives [None] for a key
    without entry; [Put] and [Delete] give the storage after the call. *)
Class Storage (St : Type) := {
  Get : St -> string -> error + option StorageEntry;
  Put : St -> StorageEntry -> St * option error;
  Delete : St -> string -> St * option error;
}.

(** Modelled from the spec: the storage collaborator, which is not among
    the sources, as its contract of get, put and delete by string key
    describes it.  The in-memory storage is a finite map from keys to
    values; no call fails, and deleting a key without entry is not an
    error. *)
Record InmemStorage := { entries : gmap string bytes }.

#[export] Instance Inmem_Storage : Storage InmemStorage := {
  Get s k :=
    inr (match entries s !! k with
         | Some v => Some {| Key := k; Value := v |}
         | None => None
         end);
  Put s en := ({| entries := <[Key en := Value en]> (entries s) |}, None);
  Delete s k := ({| entries := delete k (entries s) |}, None);
}.

(** A storage that cannot be reached: every call fails with the same
    error and nothing changes. *)
Record Unreachable := { outage : error }.

#[export] Instance Unreachable_Storage : Storage Unreachable := {
  Get s _ := inl (outage s);
  Put s _ := (s, Some (outage s));
  Delete s _ := (s, Some (outage s));
}.

(** ** The stored record and its JSON form *)

Record keyEntry := {
  SerializedKey : bytes;
  Exportable : bool;
}.

(** [logical.StorageEntryJSON] and [StorageEntry.DecodeJSON] *)
Class JSONCodec := {
  EncodeJSON : keyEntry -> error + bytes;
  DecodeJSON : bytes -> error + keyEntry;
}.

(** ** Requests and responses *)

(** [framework.FieldData] after the schema of [pathKeys]: one field per
    declared name, of the declared type. *)
Record FieldData := {
  data_name : string;
  data_real_name : string;
  data_email : string;
  data_comment : string;
  data_key_bits : Z;
  data_key : string;
  data_exportable : bool;
  data_generate : bool;
}.

(** A value of a response's [Data] map. *)
Inductive Datum : Type :=
  | DString (s : string)
  | DBool (b : bool).

(** [*logical.Response]: what [logical.ErrorResponse] builds, or a
    response carrying [Data]. *)
Inductive Response : Type :=
  | ErrorResponse (text : string)
  | DataResponse (Data : gmap string Datum).

(** ** Handlers *)

(** The calls a handler makes to its collaborators, in the order it makes
    them. *)
Inductive Call : Type :=
  | CallGet (k : string)
  | CallPut (en : StorageEntry)
  | CallDelete (k : string)
  | CallNewEntity (bits : Z)
  | CallSerializePrivate
  | CallReadKeyRing (r : bytes)
  | CallReadArmoredKeyRing (r : string).

(** The state a handler runs in: the request's storage and the calls made
    so far (oldest first). *)
Record World (St : Type) := {
  storage : St;
  calls : list Call;
}.
Arguments storage {St} _.
Arguments calls {St} _.

Definition Handler (St A : Type) : Type := World St -> World St * result A.

Section Monad.
Context {St : Type}.

Definition ret {A} (a : A) : Handler St A := fun w => (w, Ok a).
Definition fail {A} (e : error) : Handler St A := fun w => (w, Err e).
Definition panic {A} (msg : string) : Handler St A := fun w => (w, Panic msg).

Definition bind {A B} (m : Handler St A) (k : A -> Handler St B) : Handler St B :=
  fun w =>
    match m w with
    | (w', Ok a) => k a w'
    | (w', Err e) => (w', Err e)
    | (w', Panic msg) => (w', Panic msg)
    end.

(** The world after one more call has been noted. *)
Definition logged (w : World St) (c : Call) : World St :=
  {| storage := storage w; calls := calls w ++ [c] |}.

Definition record (c : Call) : Handler St unit :=
  fun w => (logged w c, Ok tt).

(** A call to a function of a library: noted, then its result or its
    error. *)
Definition call {A} (c : Call) (r : error + A) : Handler St A :=
  bind (record c) (fun _ => match r with inl e => fail e | inr a => ret a end).

End Monad.

Notation "'do' x <- m ; k" := (bind m (fun x => k))
  (at level 10, x name, m at level 100, k at level 200).

Section Backend.
Context `{OpenPGP} `{JSONCodec} `{Storage St}.

(** [s.Get(ctx, k)] *)
Definition storage_Get (k : string) : Handler St (option StorageEntry) :=
  do _ <- record (CallGet k);
  fun w => (w, match Get (storage w) k with inl e => Err e | inr r => Ok r end).

(** [req.Storage.Put(ctx, entry)] *)
Definition storage_Put (en : StorageEntry) : Handler St unit :=
  do _ <- record (CallPut en);
  fun w =>
    let '(s, err) := Put (storage w) en in
    ({| storage := s; calls := calls w |},
     match err with Some e => Err e | None => Ok tt end).

(** [req.Storage.Delete(ctx, k)] *)
Definition storage_Delete (k : string) : Handler St unit :=
  do _ <- record (CallDelete k);
  fun w =>
    let '(s, err) := Delete (storage w) k in
    ({| storage := s; calls := calls w |},
     match err with Some e => Err e | None => Ok tt end).

(** [el[0]] *)
Definition index0 {A} (el : list A) : Handler St A :=
  match el with
  | e :: _ => ret e
  | [] => panic "runtime error: index out of range [0] with length 0"
  end.

(** [b.key(ctx, s, name)]: the record stored under [name], if any. *)
Definition key (name : string) : Handler St (option keyEntry) :=
  do entry <- storage_Get ("key/" +:+ name);
  match entry with
  | None => ret None
  | Some entry =>
      match DecodeJSON (Value entry) with
      | inl err => fail err
      | inr result => ret (Some result)
      end
  end.

(** [b.entity(entry)]: the entity the record holds. *)
Definition entity (entry : keyEntry) : Handler St Entity :=
  do el <- call (CallReadKeyRing (SerializedKey entry))
                (ReadKeyRing (SerializedKey entry));
  index0 el.

(** [pathKeyRead].  The armor writer [w] sits on a fresh [bytes.Buffer];
    after [w.Close()] the buffer holds the armored text of what was
    written to [w]. *)
Definition pathKeyRead (data : FieldData) : Handler St (option Response) :=
  do entry <- key (data_name data);
  match entry with
  | None => ret None
  | Some entry =>
      do entity <- entity entry;
      match Entity_Serialize entity ([] : Buffer) with
      | (_, Some err) => fail err
      | (body, None) =>
          ret (Some (DataResponse
            {[ "fingerprint" :=
                 DString (hex.EncodeToString (Fingerprint (PrimaryKey entity)));
               "public_key" := DString (armor_Encode PublicKeyType body);
               "exportable" := DBool (Exportable entry) ]}))
      end
  end.

(** The end of [pathKeyCreate]: the record is encoded and put. *)
Definition storeKey (name : string) (exportable : bool) (buf : Buffer)
  : Handler St (option Response) :=
  match EncodeJSON {| SerializedKey := buf; Exportable := exportable |} with
  | inl err => fail err
  | inr value =>
      do _ <- storage_Put {| Key := "key/" +:+ name; Value := value |};
      ret None
  end.

Definition pathKeyCreate (data : FieldData) : Handler St (option Response) :=
  let name := data_name data in
  let realName := data_real_name data in
  let email := data_email data in
  let comment := data_comment data in
  let keyBits := data_key_bits data in
  let exportable := data_exportable data in
  let generate := data_generate data in
  let key := data_key data in
  if generate then
    if keyBits <? 2048 then
      ret (Some (ErrorResponse "Keys < 2048 bits are unsafe and not supported"))
    else
      do entity <- call (CallNewEntity keyBits)
                        (NewEntity realName comment email keyBits);
      do buf <- call CallSerializePrivate (SerializePrivate entity);
      storeKey name exportable buf
  else
    if bool_decide (key = "") then
      ret (Some (ErrorResponse "the key value is required for generated keys"))
    else
      do parsed <- (do _ <- record (CallReadArmoredKeyRing key);
                    ret (ReadArmoredKeyRing key));
      match parsed with
      | inl err => ret (Some (ErrorResponse err))
      | inr el =>
          do e <- index0 el;
          match serializePrivateWithoutSigning ([] : Buffer) e with
          | (_, Some _) =>
              ret (Some (ErrorResponse
                "the key could not be serialized, is a private key present?"))
          | (buf, None) => storeKey name exportable buf
          end
      end.

Definition pathKeyDelete (data : FieldData) : Handler St (option Response) :=
  do _ <- storage_Delete ("key/" +:+ data_name data);
  ret None.

(** *** Vocabulary of the specification *)

(** The ways a create request can fail before the record is put:
    validation (key size, missing key), generation, parsing (armor that
    does not parse, a key ring without entity), and encoding (the
    entity, or the record). *)
Inductive CreateFailure (data : FieldData) : Prop :=
  | KeyTooSmall :
      data_generate data = true ->
      data_key_bits data < 2048 ->
      CreateFailure data
  | GenerationError (err : error) :
      data_generate data = true ->
      2048 <= data_key_bits data ->
      NewEntity (data_real_name data) (data_comment data) (data_email data)
                (data_key_bits data) = inl err ->
      CreateFailure data
  | SigningError (e : Entity) (err : error) :
      data_generate data = true ->
      2048 <= data_key_bits data ->
      NewEntity (data_real_name data) (data_comment data) (data_email data)
                (data_key_bits data) = inr e ->
      SerializePrivate e = inl err ->
      CreateFailure data
  | GeneratedRecordError (e : Entity) (buf : bytes) (err : error) :
      data_generate data = true ->
      2048 <= data_key_bits data ->
      NewEntity (data_real_name data) (data_comment data) (data_email data)
                (data_key_bits data) = inr e ->
      SerializePrivate e = inr buf ->
      EncodeJSON {| SerializedKey := buf; Exportable := data_exportable data |}
        = inl err ->
      CreateFailure data
  | MissingKey :
      data_generate data = false ->
      data_key data = "" ->
      CreateFailure data
  | UnparseableArmor (err : error) :
      data_generate data = false ->
      data_key data <> "" ->
      ReadArmoredKeyRing (data_key data) = inl err ->
      CreateFailure data
  | EmptyKeyRing :
      data_generate data = false ->
      data_key data <> "" ->
      ReadArmoredKeyRing (data_key data) = inr [] ->
      CreateFailure data
  | NotSerializable (e : Entity) (rest : list Entity) (buf : Buffer) (err : error) :
      data_generate data = false ->
      data_key data <> "" ->
      ReadArmoredKeyRing (data_key data) = inr (e :: rest) ->
      serializePrivateWithoutSigning ([] : Buffer) e = (buf, Some err) ->
      CreateFailure data
  | ImportedRecordError (e : Entity) (rest : list Entity) (buf : Buffer) (err : error) :
      data_generate data = false ->
      data_key data <> "" ->
      ReadArmoredKeyRing (data_key data) = inr (e :: rest) ->
      serializePrivateWithoutSigning ([] : Buffer) e = (buf, None) ->
      EncodeJSON {| SerializedKey := buf; Exportable := data_exportable data |}
        = inl err ->
      CreateFailure data.

(** The error responses of the create handler. *)
Definition KeyTooSmallResponse : Response :=
  ErrorResponse "Keys < 2048 bits are unsafe and not supported".

Definition MissingKeyResponse : Response :=
  ErrorResponse "the key value is required for generated keys".

Definition NotSerializableResponse : Response :=
  ErrorResponse "the key could not be serialized, is a private key present?".

Definition indexOutOfRange : string :=
  "runtime error: index out of range [0] with length 0".

(** The entries a sequence of calls has put. *)
Definition puts (cs : list Call) : list StorageEntry :=
  flat_map (fun c => match c with CallPut en => [en] | _ => [] end) cs.

(** [w'] has the storage of [w] and no put was called in between. *)
Definition untouched (w w' : World St) : Prop :=
  storage w' = storage w /\ puts (calls w') = puts (calls w).

(** A handler ended well when it returned neither an error nor an error
    response, and did not panic. *)
Definition succeeded (r : result (option Response)) : bool :=
  match r with
  | Ok None | Ok (Some (DataResponse _)) => true
  | _ => false
  end.

(** The field [k] of the payload a handler answered, if it answered
    one. *)
Definition responseField (k : string) (r : result (option Response))
  : option Datum :=
  match r with
  | Ok (Some (DataResponse d)) => d !! k
  | _ => None
  end.

End Backend.

(** ** A small instance of the collaborators

    A miniature packet format on which the definitions above can be run:
    a public key is one byte and its fingerprint repeats it, a private key
    is one byte whose secret part is in the clear or still encrypted, a
    user ID is a string, a signature is one byte. *)
Module Toy.

Inductive Secret : Type :=
  | Clear (b : Byte.byte)
  | Encrypted (b : Byte.byte).

#[export] Instance packets : Packets := {
  packet_PublicKey := Byte.byte;
  packet_PrivateKey := Secret;
  packet_UserId := string;
  packet_Signature := Byte.byte;
  Fingerprint pk := repeat pk 20;
  Fingerprint_len pk := repeat_length pk 20;
  PublicKey_encoding pk := inr [Byte.x99; pk];
  PrivateKey_encoding k :=
    match k with
    | Clear b => inr [Byte.x95; b]
    | Encrypted _ => inl "openpgp: invalid argument: unknown private key type"
    end;
  UserId_encoding u := inr (Byte.xb4 :: list_byte_of_string u);
  Signature_encoding s := inr [Byte.x89; s];
}.

(** The entity a lone private key packet stands for. *)
Definition entityOf (b : Byte.byte) : Entity := {|
  PrimaryKey := b;
  PrivateKey := Some (Clear b);
  Identities := [];
  Subkeys := [];
|}.

(** The entity a lone public key packet stands for. *)
Definition publicOf (b : Byte.byte) : Entity := {|
  PrimaryKey := b;
  PrivateKey := None;
  Identities := [];
  Subkeys := [];
|}.

(** A key ring is a sequence of private or public key packets, one
    entity each; the empty sequence is the empty key ring. *)
Fixpoint readKeyRing (r : bytes) : error + list Entity :=
  match r with
  | [] => inr []
  | Byte.x95 :: b :: rest =>
      match readKeyRing rest with
      | inr el => inr (entityOf b :: el)
      | inl e => inl e
      end
  | Byte.x99 :: b :: rest =>
      match readKeyRing rest with
      | inr el => inr (publicOf b :: el)
      | inl e => inl e
      end
  | _ => inl "openpgp: invalid data: tag byte does not have MSB set"
  end.

(** Armored text is a dash followed by the body. *)
Definition readArmoredKeyRing (r : string) : error + list Entity :=
  match r with
  | String "-" body => readKeyRing (list_byte_of_string body)
  | _ => inl "openpgp: invalid argument: no armored data found"
  end.

Definition newEntity (name comment email : string) (bits : Z) : error + Entity :=
  inr {| PrimaryKey := Byte.x01;
         PrivateKey := Some (Clear Byte.x01);
         Identities := [(name, {| UserId := name; SelfSignature := Byte.x13 |})];
         Subkeys := [] |}.

#[export] Instance openpgp : OpenPGP := {
  ReadKeyRing := readKeyRing;
  ReadArmoredKeyRing := readArmoredKeyRing;
  NewEntity := newEntity;
  SerializePrivate e :=
    match serializePrivateWithoutSigning ([] : Buffer) e with
    | (buf, None) => inr buf
    | (_, Some err) => inl err
    end;
  armor_Encode blockType body := String "-" (string_of_list_byte body);
}.

(** One byte for the flag, then the key. *)
#[export] Instance json : JSONCodec := {
  EncodeJSON en :=
    inr ((if Exportable en then Byte.x01 else Byte.x00) :: SerializedKey en);
  DecodeJSON v :=
    match v with
    | Byte.x00 :: k => inr {| SerializedKey := k; Exportable := false |}
    | Byte.x01 :: k => inr {| SerializedKey := k; Exportable := true |}
    | _ => inl "unexpected end of JSON input"
    end;
}.

(** An entity whose primary private key is passphrase-protected. *)
Definition locked : Entity := {|
  PrimaryKey := Byte.x07;
  PrivateKey := Some (Encrypted Byte.x07);
  Identities := [("alice", {| UserId := "alice"; SelfSignature := Byte.x10 |})];
  Subkeys := [];
|}.

(** An entity with a public primary key only and a subkey that has its
    private part. *)
Definition alice : Entity := {|
  PrimaryKey := Byte.x07;
  PrivateKey := None;
  Identities := [("alice", {| UserId := "al"; SelfSignature := Byte.x10 |})];
  Subkeys := [ {| SubkeyPublicKey := Byte.x08;
                  SubkeyPrivateKey := Some (Clear Byte.x08);
                  Sig := Byte.x11 |} ];
|}.

Definition request (name key : string) (generate : bool) (bits : Z) : FieldData := {|
  data_name := name;
  data_real_name := "Alice";
  data_email := "alice@example.org";
  data_comment := "";
  data_key_bits := bits;
  data_key := key;
  data_exportable := true;
  data_generate := generate;
|}.

Definition emptyWorld : World InmemStorage :=
  {| storage := {| entries := ∅ |}; calls := [] |}.

(** A key ring of two entities, and the armored text of a body. *)
Definition ring2 : bytes := [Byte.x95; Byte.x41; Byte.x95; Byte.x42].

Definition armored (body : bytes) : string :=
  String "-" (string_of_list_byte body).

(** The storage holding, under [name], the record of key ring [k]. *)
Definition stored (name : string) (exportable : bool) (k : bytes)
  : World InmemStorage :=
  {| storage :=
       {| entries :=
            {[ "key/" +:+ name :=
                 (if exportable then Byte.x01 else Byte.x00) :: k ]} |};
     calls := [] |}.

Definition down : World Unreachable :=
  {| storage := {| outage := "connection refused" |}; calls := [] |}.

End Toy.

(** ** The fields of a key request ([pathKeys]) *)

Inductive FieldType : Type := TypeString | TypeInt | TypeBool.

Inductive FieldValue : Type :=
  | VString (s : string)
  | VInt (n : Z)
  | VBool (b : bool).

(** [framework.FieldSchema]: the type of a field and its default, if one
    is declared. *)
Record FieldSchema := {
  Type_ : FieldType;
  Default : option FieldValue;
}.

(** The [Fields] of [pathKeys]. *)
Definition pathKeys_Fields : gmap string FieldSchema :=
  list_to_map
    [ ("name", {| Type_ := TypeString; Default := None |});
      ("real_name", {| Type_ := TypeString; Default := None |});
      ("email", {| Type_ := TypeString; Default := None |});
      ("comment", {| Type_ := TypeString; Default := None |});
      ("key_bits", {| Type_ := TypeInt; Default := Some (VInt 2048) |});
      ("key", {| Type_ := TypeString; Default := None |});
      ("exportable", {| Type_ := TypeBool; Default := None |});
      ("generate", {| Type_ := TypeBool; Default := Some (VBool true) |}) ].

(** What a request sets: each field of the schema is present, with a
    value of its type, or absent. *)
Record RawFields := {
  raw_name : option string;
  raw_real_name : option string;
  raw_email : option string;
  raw_comment : option string;
  raw_key_bits : option Z;
  raw_key : option string;
  raw_exportable : option bool;
  raw_generate : option bool;
}.

(** [data.Get(k)] for a field of each type: the value the request sets,
    else the default the schema declares, else the zero value of the
    type. *)
Definition getString (k : string) (raw : option string) : string :=
  match raw with
  | Some v => v
  | None =>
      match pathKeys_Fields !! k ≫= Default with
      | Some (VString d) => d
      | _ => ""
      end
  end.

Definition getInt (k : string) (raw : option Z) : Z :=
  match raw with
  | Some v => v
  | None =>
      match pathKeys_Fields !! k ≫= Default with
      | Some (VInt d) => d
      | _ => 0
      end
  end.

Definition getBool (k : string) (raw : option bool) : bool :=
  match raw with
  | Some v => v
  | None =>
      match pathKeys_Fields !! k ≫= Default with
      | Some (VBool d) => d
      | _ => false
      end
  end.

(** The field data the handlers of [pathKeys] read. *)
Definition fieldData (r : RawFields) : FieldData := {|
  data_name := getString "name" (raw_name r);
  data_real_name := getString "real_name" (raw_real_name r);
  data_email := getString "email" (raw_email r);
  data_comment := getString "comment" (raw_comment r);
  data_key_bits := getInt "key_bits" (raw_key_bits r);
  data_key := getString "key" (raw_key r);
  data_exportable := getBool "exportable" (raw_exportable r);
  data_generate := getBool "generate" (raw_generate r);
|}.

(** The request [r] with its [key] field set to [k]. *)
Definition setKey (r : RawFields) (k : option string) : RawFields := {|
  raw_name := raw_name r;
  raw_real_name := raw_real_name r;
  raw_email := raw_email r;
  raw_comment := raw_comment r;
  raw_key_bits := raw_key_bits r;
  raw_key := k;
  raw_exportable := raw_exportable r;
  raw_generate := raw_generate r;
|}.

(** ** Reading hexadecimal text back *)

Module unhex.

Fixpoint position (c : ascii) (table : string) : option N :=
  match table with
  | EmptyString => None
  | String d rest =>
      if bool_decide (c = d) then Some 0%N
      else option_map N.succ (position c rest)
  end.

(** The byte two digits of [hex.hextable] stand for. *)
Definition pair (hi lo : ascii) : option Byte.byte :=
  match position hi hex.hextable, position lo hex.hextable with
  | Some h, Some l => Byte.of_N (16 * h + l)
  | _, _ => None
  end.

Fixpoint decode (s : string) : option bytes :=
  match s with
  | EmptyString => Some []
  | String hi (String lo rest) =>
      match pair hi lo, decode rest with
      | Some v, Some vs => Some (v :: vs)
      | _, _ => None
      end
  | String _ EmptyString => None
  end.

End unhex.

(** ** What a create request puts *)

Section CreatedRecord.
Context `{OpenPGP} `{JSONCodec}.

(** The serialized key a create request arrives at, if no step before
    fails: the generated entity serialized with new signatures, or the
    first entity of the supplied key ring serialized with its own. *)
Definition keyMaterial (data : FieldData) : option Buffer :=
  if data_generate data then
    if data_key_bits data <? 2048 then None
    else
      match NewEntity (data_real_name data) (data_comment data)
                      (data_email data) (data_key_bits data) with
      | inr e =>
          match SerializePrivate e with
          | inr buf => Some buf
          | inl _ => None
          end
      | inl _ => None
      end
  else
    if bool_decide (data_key data = "") then None
    else
      match ReadArmoredKeyRing (data_key data) with
      | inr (e :: _) =>
          match serializePrivateWithoutSigning ([] : Buffer) e with
          | (buf, None) => Some buf
          | (_, Some _) => None
          end
      | _ => None
      end.

(** The storage entry a create request puts, if it gets that far. *)
Definition recordToPut (data : FieldData) : option StorageEntry :=
  match keyMaterial data with
  | Some buf =>
      match EncodeJSON {| SerializedKey := buf;
                          Exportable := data_exportable data |} with
      | inr value => Some {| Key := "key/" +:+ data_name data; Value := value |}
      | inl _ => None
      end
  | None => None
  end.

End CreatedRecord.

(** ** Listing the keys ([pathKeyList]) *)

(** [s.List(ctx, prefix)]: the keys that start with [prefix], without
    it. *)
Class Listing (St : Type) := StorageList : St -> string -> error + list string.

(** [s] without the prefix [p], if it starts with it. *)
Fixpoint stripPrefix (p s : string) : option string :=
  match p, s with
  | EmptyString, _ => Some s
  | String a p', String b s' =>
      if bool_decide (a = b) then stripPrefix p' s' else None
  | String _ _, EmptyString => None
  end.

(** The lexicographic order of strings. *)
Definition string_le (a b : string) : Prop := String.leb a b = true.

#[export] Instance string_le_dec : RelDecision string_le :=
  fun a b => decide (String.leb a b = true).

(** Modelled from the spec: the list call of the storage collaborator,
    which is not among the sources.  The in-memory storage gives the
    suffixes of its keys under the prefix, in lexicographic order. *)
#[export] Instance Inmem_Listing : Listing InmemStorage :=
  fun s prefix =>
    inr (merge_sort string_le
           (omap (stripPrefix prefix) (fst <$> map_to_list (entries s)))).

#[export] Instance Unreachable_Listing : Listing Unreachable :=
  fun s _ => inl (outage s).

(** [logical.ListResponse(keys)]: the [Data] of the response holds the
    keys under ["keys"], and nothing when there is no key. *)
Definition ListResponse (keys : list string) : gmap string (list string) :=
  match keys with
  | [] => ∅
  | _ => {[ "keys" := keys ]}
  end.

(** [pathKeyList].  The response is never nil; it is given by its
    [Data]. *)
Definition pathKeyList `{Listing St} : Handler St (gmap string (list string)) :=
  fun w =>
    match StorageList (storage w) "key/" with
    | inl err => (w, Err err)
    | inr entries => (w, Ok (ListResponse entries))
    end.

(** The names a list answered. *)
Definition listedKeys (r : result (gmap string (list string))) : list string :=
  match r with
  | Ok d => default [] (d !! "keys")
  | _ => []
  end.

(** Whether a handler answered an error response. *)
Definition isErrorResponse (r : result (option Response)) : bool :=
  match r with
  | Ok (Some (ErrorResponse _)) => true
  | _ => false
  end.

(** ** More of the small instance *)

Module Samples.

(** A request that sets its name only. *)
Definition nameOnly (name : string) : RawFields := {|
  raw_name := Some name;
  raw_real_name := None;
  raw_email := None;
  raw_comment := None;
  raw_key_bits := None;
  raw_key := None;
  raw_exportable := None;
  raw_generate := None;
|}.

(** A request that sets its name and a key, and leaves [generate] out. *)
Definition nameAndKey (name key : string) : RawFields := {|
  raw_name := Some name;
  raw_real_name := None;
  raw_email := None;
  raw_comment := None;
  raw_key_bits := None;
  raw_key := Some key;
  raw_exportable := None;
  raw_generate := None;
|}.

(** An import of the key ring of two entities under [name]. *)
Definition importRing (name : string) (exportable : bool) : FieldData := {|
  data_name := name;
  data_real_name := "";
  data_email := "";
  data_comment := "";
  data_key_bits := 0;
  data_key := Toy.armored Toy.ring2;
  data_exportable := exportable;
  data_generate := false;
|}.

(** A key ring of two entities whose first primary key is [0xab]. *)
Definition ringAB : bytes := [Byte.x95; Byte.xab; Byte.x95; Byte.x42].

Definition fingerprintAB : string := "abababababababababababababababababababab".

(** A storage whose entry under [name] is [value]. *)
Definition holding (name : string) (value : bytes) : World InmemStorage :=
  {| storage := {| entries := {[ "key/" +:+ name := value ]} |}; calls := [] |}.

End Samples.

(** ** An instance whose public keys cannot be encoded

    The packet format of the small instance, with a library that refuses
    to encode every public key (as the library does for a key of an
    algorithm it does not know). *)
Module Brittle.

Definition errBadAlgorithm : error :=
  "openpgp: invalid argument: bad public-key algorithm".

#[export] Instance packets : Packets := {
  packet_PublicKey := Byte.byte;
  packet_PrivateKey := Byte.byte;
  packet_UserId := string;
  packet_Signature := Byte.byte;
  Fingerprint pk := repeat pk 20;
  Fingerprint_len pk := repeat_length pk 20;
  PublicKey_encoding _ := inl errBadAlgorithm;
  PrivateKey_encoding k := inr [Byte.x95; k];
  UserId_encoding u := inr (Byte.xb4 :: list_byte_of_string u);
  Signature_encoding s := inr [Byte.x89; s];
}.

Definition entityOf (b : Byte.byte) : Entity := {|
  PrimaryKey := b;
  PrivateKey := Some b;
  Identities := [];
  Subkeys := [];
|}.

(** A key ring is read as one entity, named by its first byte. *)
#[export] Instance openpgp : OpenPGP := {
  ReadKeyRing r :=
    match r with
    | [] => inr []
    | b :: _ => inr [entityOf b]
    end;
  ReadArmoredKeyRing _ := inl "openpgp: invalid argument: no armored data found";
  NewEntity _ _ _ _ := inl "openpgp: invalid argument: user id field contained invalid characters";
  SerializePrivate _ := inl errBadAlgorithm;
  armor_Encode _ body := string_of_list_byte body;
}.

(** The read of the record of key ring [k] stored under [name]. *)
Definition readStored (name : string) (k : bytes) : result (option Response) :=
  snd (@pathKeyRead packets openpgp Toy.json InmemStorage Inmem_Storage
         (Toy.request name "" true 2048) (Toy.stored name true k)).

End Brittle.

(** * Properties *)

(** ** The serializer that keeps the signatures *)

Section SerializerFacts.
Context `{Packets} `{Writer W}.

Lemma andThen_assoc (step : W * option error) (f g : W -> W * option error) :
  andThen (andThen step f) g = andThen step (fun w => andThen (f w) g).
Proof. by destruct step as [w [e|]]. Qed.

Lemma emit_app (ps qs : list Packet) (w : W) :
  emit (ps ++ qs) w = andThen (emit ps w) (emit qs).
Proof.
  revert w; induction ps as [|p ps IH]; intros w; simpl; first done.
  rewrite andThen_assoc.
  destruct (Serialize p w) as [w' [e|]]; simpl; [done | apply IH].
Qed.

Lemma serializeIdentities_emit (ids : list (string * Identity)) (w : W) :
  serializeIdentities ids w
  = emit (flat_map (fun i => identityPackets (snd i)) ids) w.
Proof.
  revert w; induction ids as [|[name ident] ids IH]; intros w; simpl; first done.
  destruct (Serialize (UserIdPacket (UserId ident)) w) as [w1 [e|]];
    simpl; first done.
  destruct (Serialize (SignaturePacket (SelfSignature ident)) w1) as [w2 [e|]];
    simpl; [done | apply IH].
Qed.

(** The subkey loop writes the subkey packets in order; when it runs to
    its end, [foundPrivateKey] tells whether a private key was met. *)
Lemma serializeSubkeys_emit (sks : list Subkey) (found : bool) (w : W) :
  match serializeSubkeys sks found w with
  | (w', found', err) =>
      emit (flat_map subkeyPrivatePackets sks) w = (w', err)
      /\ (err = None -> found' = found || subkeysCarryPrivateKey sks)
  end.
Proof.
  revert found w; induction sks as [|sk sks IH]; intros found w; simpl.
  { split; [done | intros _; by rewrite orb_false_r]. }
  unfold subkeyPrivatePackets at 1.
  destruct (SubkeyPrivateKey sk) as [pk|] eqn:Hpk; simpl.
  - destruct (Serialize (PrivateKeyPacket pk) w) as [w1 [e|]]; simpl;
      first done.
    destruct (Serialize (SignaturePacket (Sig sk)) w1) as [w2 [e|]]; simpl;
      first done.
    specialize (IH true w2).
    destruct (serializeSubkeys sks true w2) as [[w3 found3] err3].
    destruct IH as [IH1 IH2]; split; first done.
    intros Herr. rewrite (IH2 Herr). by rewrite orb_true_r.
  - destruct (Serialize (SignaturePacket (Sig sk)) w) as [w1 [e|]]; simpl;
      first done.
    specialize (IH found w1).
    destruct (serializeSubkeys sks found w1) as [[w2 found2] err2].
    destruct IH as [IH1 IH2]; split; first done.
    intros Herr. by rewrite (IH2 Herr).
Qed.

(** The part of the function after the primary key. *)
Lemma afterPrimary_emit (e : Entity) (found : bool) (w : W) :
  andThen (serializeIdentities (Identities e) w) (fun w =>
    match serializeSubkeys (Subkeys e) found w with
    | (w, _, Some err) => (w, Some err)
    | (w, foundPrivateKey, None) =>
        if negb foundPrivateKey then (w, Some errNoPrivateKey) else (w, None)
    end)
  = match emit (flat_map (fun i => identityPackets (snd i)) (Identities e)
                ++ flat_map subkeyPrivatePackets (Subkeys e)) w with
    | (w', Some err) => (w', Some err)
    | (w', None) =>
        (w', if found || subkeysCarryPrivateKey (Subkeys e) then None
             else Some errNoPrivateKey)
    end.
Proof.
  rewrite emit_app, serializeIdentities_emit.
  destruct (emit _ w) as [w1 [err|]]; simpl; first done.
  pose proof (serializeSubkeys_emit (Subkeys e) found w1) as Hsub.
  destruct (serializeSubkeys (Subkeys e) found w1) as [[w2 found2] err2].
  destruct Hsub as [-> Hfound].
  destruct err2 as [err|]; first done.
  rewrite (Hfound eq_refl).
  by destruct (found || subkeysCarryPrivateKey (Subkeys e)).
Qed.

(** C1 (as amended).  [serializePrivateWithoutSigning] writes the packets
    of the entity in the fixed order of [privatePackets]: the primary
    private key if present, then each identity's user ID followed by the
    self-signature the entity holds, then each subkey's private key if
    present followed by the binding signature the entity holds.  It stops
    at the first packet whose serialization fails and returns that error;
    when every packet has been written it returns an error exactly when
    neither the primary key nor any subkey carries private material. *)
Theorem serializePrivateWithoutSigning_layout (w : W) (e : Entity) :
  serializePrivateWithoutSigning w e
  = match emit (privatePackets e) w with
    | (w', Some err) => (w', Some err)
    | (w', None) =>
        (w', if carriesPrivateKey e then None else Some errNoPrivateKey)
    end.
Proof.
  unfold serializePrivateWithoutSigning, privatePackets, carriesPrivateKey.
  destruct (PrivateKey e) as [pk|]; simpl.
  - destruct (Serialize (PrivateKeyPacket pk) w) as [w1 [err|]]; simpl;
      first done.
    by rewrite afterPrimary_emit.
  - by rewrite afterPrimary_emit.
Qed.

End SerializerFacts.

(** C1 (as stated) fails: an entity whose primary private key is still
    passphrase-protected carries private material, and the serializer
    returns the error of that packet. *)
Lemma serializePrivateWithoutSigning_error_with_private_key :
  ~ (is_Some (snd (serializePrivateWithoutSigning ([] : Buffer) Toy.locked))
     <-> carriesPrivateKey Toy.locked = false).
Proof.
  intros [Himp _].
  assert (Herr : is_Some (snd (serializePrivateWithoutSigning ([] : Buffer) Toy.locked)))
    by (vm_compute; eauto).
  specialize (Himp Herr). vm_compute in Himp. discriminate.
Qed.

(** ** Create *)

Section CreateFacts.
Context `{OpenPGP} `{JSONCodec} `{Storage St}.

Implicit Types (data : FieldData) (w : World St).

Lemma create_generate data w :
  data_generate data = true ->
  2048 <= data_key_bits data ->
  pathKeyCreate data w
  = (do entity <- call (CallNewEntity (data_key_bits data))
                       (NewEntity (data_real_name data) (data_comment data)
                                  (data_email data) (data_key_bits data));
     do buf <- call CallSerializePrivate (SerializePrivate entity);
     storeKey (data_name data) (data_exportable data) buf) w.
Proof.
  intros Hgen Hbits. unfold pathKeyCreate. rewrite Hgen.
  by destruct (Z.ltb_spec (data_key_bits data) 2048); first lia.
Qed.

Lemma create_import data w :
  data_generate data = false ->
  data_key data <> "" ->
  pathKeyCreate data w
  = match ReadArmoredKeyRing (data_key data) with
    | inl err => (logged w (CallReadArmoredKeyRing (data_key data)),
                  Ok (Some (ErrorResponse err)))
    | inr el =>
        (do e <- index0 el;
         match serializePrivateWithoutSigning ([] : Buffer) e with
         | (_, Some _) =>
             ret (Some (ErrorResponse
               "the key could not be serialized, is a private key present?"))
         | (buf, None) => storeKey (data_name data) (data_exportable data) buf
         end) (logged w (CallReadArmoredKeyRing (data_key data)))
    end.
Proof.
  intros Hgen Hkey. unfold pathKeyCreate. rewrite Hgen.
  rewrite bool_decide_eq_false_2 by done.
  unfold bind at 1; simpl.
  by destruct (ReadArmoredKeyRing (data_key data)).
Qed.

Lemma create_too_small data w :
  data_generate data = true ->
  data_key_bits data < 2048 ->
  pathKeyCreate data w = (w, Ok (Some KeyTooSmallResponse)).
Proof.
  intros Hgen Hbits. unfold pathKeyCreate. rewrite Hgen.
  by destruct (Z.ltb_spec (data_key_bits data) 2048); last lia.
Qed.

Lemma create_no_key data w :
  data_generate data = false ->
  data_key data = "" ->
  pathKeyCreate data w = (w, Ok (Some MissingKeyResponse)).
Proof.
  intros Hgen Hkey. unfold pathKeyCreate. by rewrite Hgen, Hkey.
Qed.

(** C3.  A create request that asks for generation with [key_bits] below
    2048 is answered with the undersized-key error response (a response,
    not an error of the handler); no collaborator is called, so no key
    is generated and nothing is put.  With [key_bits] from 2048 on the
    size check passes: the generator is the first collaborator called
    and the answer is not the undersized-key response. *)
Theorem create_key_size_floor data w :
  data_generate data = true ->
  (data_key_bits data < 2048 ->
     pathKeyCreate data w = (w, Ok (Some KeyTooSmallResponse)))
  /\ (2048 <= data_key_bits data ->
     (exists cs, calls (fst (pathKeyCreate data w))
                 = calls w ++ CallNewEntity (data_key_bits data) :: cs)
     /\ snd (pathKeyCreate data w) <> Ok (Some KeyTooSmallResponse)).
Proof.
  intros Hgen; split; intros Hbits.
  - by apply create_too_small.
  - rewrite create_generate by done.
    unfold bind, call, record, bind, storeKey, storage_Put, bind, record, logged, fail, ret;
      simpl.
    destruct (NewEntity _ _ _ _) as [err|e]; simpl.
    { split; [by exists [] | done]. }
    destruct (SerializePrivate e) as [err|buf]; simpl.
    { split; [|done]. eexists. by rewrite <- app_assoc. }
    destruct (EncodeJSON _) as [err|value]; simpl.
    { split; [|done]. eexists. by rewrite <- app_assoc. }
    destruct (Put _ _) as [s [err|]]; simpl.
    all: split; [|done]; eexists; by rewrite <- !app_assoc.
Qed.

(** C4.  A create request that supplies a key ([generate] is false) and
    whose key is the empty string is answered with the missing-key error
    response; no collaborator is called, so nothing is parsed and
    nothing is put. *)
Theorem create_missing_key data w :
  data_generate data = false ->
  data_key data = "" ->
  pathKeyCreate data w = (w, Ok (Some MissingKeyResponse)).
Proof. apply create_no_key. Qed.

End CreateFacts.

(** ** Key rings with several entities, or none *)

Section KeyRingFacts.
Context `{OpenPGP} `{JSONCodec} `{Storage St}.

Implicit Types (data : FieldData) (w : World St) (entry : keyEntry).

(** C2.  When the key ring parses into an entity followed by others,
    decoding a stored record gives the first entity, and importing an
    armored key continues with the first entity alone: the answer is the
    one its serialization leads to, whatever the later entities are, and
    no error or warning comes from them. *)
Theorem first_entity_only data w entry (e : Entity) (rest : list Entity) :
  (ReadKeyRing (SerializedKey entry) = inr (e :: rest) ->
     entity entry w = (logged w (CallReadKeyRing (SerializedKey entry)), Ok e))
  /\ (data_generate data = false ->
      data_key data <> "" ->
      ReadArmoredKeyRing (data_key data) = inr (e :: rest) ->
      pathKeyCreate data w
      = match serializePrivateWithoutSigning ([] : Buffer) e with
        | (_, Some _) =>
            (logged w (CallReadArmoredKeyRing (data_key data)),
             Ok (Some NotSerializableResponse))
        | (buf, None) =>
            storeKey (data_name data) (data_exportable data) buf
              (logged w (CallReadArmoredKeyRing (data_key data)))
        end).
Proof.
  split.
  - intros Hring. unfold entity, call, bind, record; simpl. by rewrite Hring.
  - intros Hgen Hkey Hring. rewrite create_import by done. rewrite Hring.
    unfold bind; simpl.
    by destruct (serializePrivateWithoutSigning _ e) as [buf [err|]].
Qed.

(** C10.  Both paths take element 0 of the parsed list without looking
    at its length.  When the parser gives an empty list and no error the
    handler panics with an index out of range (it does not return an
    error); when the list has a first element that element is taken. *)
Theorem index_zero_unchecked data w entry :
  (ReadKeyRing (SerializedKey entry) = inr [] ->
     entity entry w
     = (logged w (CallReadKeyRing (SerializedKey entry)), Panic indexOutOfRange))
  /\ (data_generate data = false ->
      data_key data <> "" ->
      ReadArmoredKeyRing (data_key data) = inr [] ->
      pathKeyCreate data w
      = (logged w (CallReadArmoredKeyRing (data_key data)), Panic indexOutOfRange))
  /\ (forall e rest,
        ReadKeyRing (SerializedKey entry) = inr (e :: rest) ->
        snd (entity entry w) = Ok e).
Proof.
  split; [|split].
  - intros Hring. unfold entity, call, bind, record; simpl. by rewrite Hring.
  - intros Hgen Hkey Hring. rewrite create_import by done. by rewrite Hring.
  - intros e rest Hring. unfold entity, call, bind, record; simpl.
    by rewrite Hring.
Qed.

End KeyRingFacts.

(** ** Create is all or nothing *)

Section AllOrNothing.
Context `{OpenPGP} `{JSONCodec} `{Storage St}.

Implicit Types (data : FieldData) (w : World St).

Lemma puts_logged w (c : Call) :
  (forall en, c <> CallPut en) ->
  puts (calls (logged w c)) = puts (calls w).
Proof.
  intros Hc. unfold puts, logged; simpl. rewrite flat_map_app; simpl.
  destruct c; try by rewrite !app_nil_r. by destruct (Hc en).
Qed.

Lemma untouched_logged w (c : Call) :
  (forall en, c <> CallPut en) -> untouched w (logged w c).
Proof. intros Hc; split; [done | by apply puts_logged]. Qed.

Lemma untouched_trans w1 w2 w3 :
  untouched w1 w2 -> untouched w2 w3 -> untouched w1 w3.
Proof. intros [? ?] [? ?]; split; congruence. Qed.

(** The end of the handler puts the record once, when the record can be
    encoded. *)
Lemma storeKey_puts (name : string) (exportable : bool) (buf : Buffer)
      (value : bytes) w :
  EncodeJSON {| SerializedKey := buf; Exportable := exportable |} = inr value ->
  puts (calls (fst (storeKey name exportable buf w)))
  = puts (calls w) ++ [{| Key := "key/" +:+ name; Value := value |}].
Proof.
  intros Henc. unfold storeKey. rewrite Henc.
  unfold bind, storage_Put, bind, record, ret; simpl.
  destruct (Put _ _) as [s [err|]]; simpl; unfold puts; by rewrite flat_map_app.
Qed.

(** The failures of [CreateFailure] are all there are: a create request
    that meets none of them puts the record, once. *)
Lemma create_fails_or_puts data w :
  CreateFailure data
  \/ exists value,
       puts (calls (fst (pathKeyCreate data w)))
       = puts (calls w) ++ [{| Key := "key/" +:+ data_name data; Value := value |}].
Proof.
  destruct (data_generate data) eqn:Hgen.
  - destruct (Z.lt_ge_cases (data_key_bits data) 2048) as [Hbits|Hbits].
    { left. by apply KeyTooSmall. }
    destruct (NewEntity (data_real_name data) (data_comment data)
                (data_email data) (data_key_bits data)) as [err|e] eqn:Hnew.
    { left. by eapply GenerationError. }
    destruct (SerializePrivate e) as [err|buf] eqn:Hser.
    { left. by eapply SigningError. }
    destruct (EncodeJSON {| SerializedKey := buf;
                            Exportable := data_exportable data |})
      as [err|value] eqn:Henc.
    { left. by eapply GeneratedRecordError. }
    right. exists value. rewrite create_generate by done.
    unfold bind, call, bind, record, ret; simpl. rewrite Hnew; simpl.
    rewrite Hser; simpl.
    rewrite (storeKey_puts _ _ _ _ _ Henc).
    by rewrite !puts_logged.
  - destruct (decide (data_key data = "")) as [Hkey|Hkey].
    { left. by apply MissingKey. }
    destruct (ReadArmoredKeyRing (data_key data)) as [err|[|e rest]] eqn:Hring.
    { left. by eapply UnparseableArmor. }
    { left. by apply EmptyKeyRing. }
    destruct (serializePrivateWithoutSigning ([] : Buffer) e) as [buf [err|]]
      eqn:Hser.
    { left. by eapply NotSerializable. }
    destruct (EncodeJSON {| SerializedKey := buf;
                            Exportable := data_exportable data |})
      as [err|value] eqn:Henc.
    { left. by eapply ImportedRecordError. }
    right. exists value. rewrite create_import by done. rewrite Hring.
    unfold bind; simpl. rewrite Hser.
    rewrite (storeKey_puts _ _ _ _ _ Henc).
    by rewrite puts_logged.
Qed.

(** C5.  Create is all or nothing: when a validation, generation,
    parsing or encoding step of a create request fails, the handler ends
    without having called the storage's put, the storage is the one it
    started with, and the handler did not end well. *)
Theorem create_all_or_nothing data w :
  CreateFailure data ->
  storage (fst (pathKeyCreate data w)) = storage w
  /\ puts (calls (fst (pathKeyCreate data w))) = puts (calls w)
  /\ succeeded (snd (pathKeyCreate data w)) = false.
Proof.
  pose proof (untouched_logged w) as Hlog.
  assert (Hgoal : forall w' r,
    pathKeyCreate data w = (w', r) -> untouched w w' -> succeeded r = false ->
    storage (fst (pathKeyCreate data w)) = storage w
    /\ puts (calls (fst (pathKeyCreate data w))) = puts (calls w)
    /\ succeeded (snd (pathKeyCreate data w)) = false).
  { intros w' r -> [? ?] ?; by repeat split. }
  intros [Hgen Hbits | err Hgen Hbits Hnew | e err Hgen Hbits Hnew Hser
         | e buf err Hgen Hbits Hnew Hser Henc
         | Hgen Hkey | err Hgen Hkey Hring | Hgen Hkey Hring
         | e rest buf err Hgen Hkey Hring Hser
         | e rest buf err Hgen Hkey Hring Hser Henc].
  - eapply Hgoal; [by apply create_too_small | done | done].
  - eapply Hgoal; [rewrite create_generate by done | |].
    + unfold bind, call, bind, record, fail; simpl. by rewrite Hnew.
    + by apply Hlog.
    + done.
  - eapply Hgoal; [rewrite create_generate by done | |].
    + unfold bind, call, bind, record, fail, ret; simpl.
      rewrite Hnew; simpl. by rewrite Hser.
    + eapply untouched_trans; by apply untouched_logged.
    + done.
  - eapply Hgoal; [rewrite create_generate by done | |].
    + unfold bind, call, bind, record, fail, ret, storeKey; simpl.
      rewrite Hnew; simpl. rewrite Hser; simpl. by rewrite Henc.
    + eapply untouched_trans; by apply untouched_logged.
    + done.
  - eapply Hgoal; [by apply create_no_key | done | done].
  - eapply Hgoal; [rewrite create_import by done; by rewrite Hring | |].
    + by apply Hlog.
    + done.
  - eapply Hgoal; [rewrite create_import by done; by rewrite Hring | |].
    + by apply Hlog.
    + done.
  - eapply Hgoal; [rewrite create_import by done | |].
    + rewrite Hring. unfold bind; simpl. by rewrite Hser.
    + by apply Hlog.
    + done.
  - eapply Hgoal; [rewrite create_import by done | |].
    + rewrite Hring. unfold bind, storeKey; simpl. rewrite Hser.
      by rewrite Henc.
    + by apply Hlog.
    + done.
Qed.

End AllOrNothing.

(** ** Hexadecimal text *)

Section HexFacts.

Lemma hex_digits_lower (v : Byte.byte) :
  hex.lower_hex_char (hex.digit (N.shiftr (Byte.to_N v) 4))
  && hex.lower_hex_char (hex.digit (N.land (Byte.to_N v) 15)) = true.
Proof. destruct v; vm_compute; reflexivity. Qed.

Lemma EncodeToString_length (src : bytes) :
  String.length (hex.EncodeToString src) = (2 * length src)%nat.
Proof. induction src as [|v src IH]; simpl; [done | lia]. Qed.

Lemma EncodeToString_lower (src : bytes) :
  hex.all_chars hex.lower_hex_char (hex.EncodeToString src) = true.
Proof.
  induction src as [|v src IH]; simpl; first done.
  rewrite IH, andb_true_r. apply hex_digits_lower.
Qed.

(** Reading the text back gives the bytes. *)
Lemma unhex_pair_digits (v : Byte.byte) :
  unhex.pair (hex.digit (N.shiftr (Byte.to_N v) 4))
             (hex.digit (N.land (Byte.to_N v) 15)) = Some v.
Proof. destruct v; vm_compute; reflexivity. Qed.

Lemma unhex_decode_EncodeToString (src : bytes) :
  unhex.decode (hex.EncodeToString src) = Some src.
Proof.
  induction src as [|v src IH]; first done.
  cbn [hex.EncodeToString unhex.decode]. by rewrite unhex_pair_digits, IH.
Qed.

End HexFacts.

(** ** Read *)

Section ReadFacts.
Context `{OpenPGP} `{JSONCodec} `{Storage St}.

Implicit Types (data : FieldData) (w : World St) (entry : keyEntry).

(** Into a buffer, the packets that can be encoded are all written:
    the buffer grows by their encodings, in order. *)
Lemma emit_Buffer (ps : list Packet) (buf body : Buffer) :
  emit ps buf = (body, None) ->
  exists chunks,
    Forall2 (fun p chunk => encoding p = inr chunk) ps chunks
    /\ body = buf ++ concat chunks.
Proof.
  revert buf; induction ps as [|p ps IH]; intros buf; simpl.
  - intros [= <-]. exists []. split; [constructor | by rewrite app_nil_r].
  - unfold Serialize. destruct (encoding p) as [err|chunk] eqn:Hp; simpl;
      first done.
    intros Hrest. destruct (IH _ Hrest) as (chunks & Hall & ->).
    exists (chunk :: chunks). split; [by constructor | simpl].
    by rewrite app_assoc.
Qed.

Lemma publicPackets_public (e : Entity) :
  forallb (fun p => negb (isPrivatePacket p)) (publicPackets e) = true.
Proof.
  unfold publicPackets; simpl. rewrite forallb_app.
  apply andb_true_iff; split.
  - induction (Identities e) as [|[name ident] ids IH]; simpl; done.
  - induction (Subkeys e) as [|sk sks IH]; simpl; done.
Qed.

(** The record [key] finds, from what the storage and the codec give. *)
Lemma key_found (name : string) w (en : StorageEntry) entry :
  Get (storage w) ("key/" +:+ name) = inr (Some en) ->
  DecodeJSON (Value en) = inr entry ->
  key name w = (logged w (CallGet ("key/" +:+ name)), Ok (Some entry)).
Proof.
  intros Hget Hjson. unfold key, storage_Get, bind, record; simpl.
  rewrite Hget; simpl. by rewrite Hjson.
Qed.

(** The read handler never changes the storage. *)
Lemma read_keeps_storage data w :
  storage (fst (pathKeyRead data w)) = storage w.
Proof.
  unfold pathKeyRead, key, entity, storage_Get, call, bind, record, fail, ret;
    simpl.
  destruct (Get _ _) as [err|[en|]]; simpl; try done.
  destruct (DecodeJSON _) as [err|entry]; simpl; try done.
  destruct (ReadKeyRing _) as [err|[|e rest]]; simpl; try done.
  by destruct (Entity_Serialize e _) as [body [err|]].
Qed.

(** What the read handler answers is decided by what the storage gives
    for the key. *)
Lemma read_from_Get data data' w w' :
  Get (storage w) ("key/" +:+ data_name data)
  = Get (storage w') ("key/" +:+ data_name data') ->
  snd (pathKeyRead data w) = snd (pathKeyRead data' w').
Proof.
  intros Hget.
  unfold pathKeyRead, key, entity, storage_Get, call, bind, record, fail, ret;
    simpl.
  rewrite <- Hget; clear Hget.
  destruct (Get _ _) as [err|[en|]]; simpl; try done.
  destruct (DecodeJSON _) as [err|entry]; simpl; try done.
  destruct (ReadKeyRing _) as [err|[|e rest]]; simpl; try done.
  by destruct (Entity_Serialize e _) as [body [err|]].
Qed.

(** The answer to the read of a record that decodes. *)
Lemma read_decoded data w (en : StorageEntry) entry (e : Entity)
      (rest : list Entity) :
  Get (storage w) ("key/" +:+ data_name data) = inr (Some en) ->
  DecodeJSON (Value en) = inr entry ->
  ReadKeyRing (SerializedKey entry) = inr (e :: rest) ->
  snd (pathKeyRead data w)
  = match Entity_Serialize e ([] : Buffer) with
    | (_, Some err) => Err err
    | (body, None) =>
        Ok (Some (DataResponse
          {[ "fingerprint" :=
               DString (hex.EncodeToString (Fingerprint (PrimaryKey e)));
             "public_key" := DString (armor_Encode PublicKeyType body);
             "exportable" := DBool (Exportable entry) ]}))
    end.
Proof.
  intros Hget Hjson Hring.
  unfold pathKeyRead, bind. rewrite (key_found _ _ _ _ Hget Hjson).
  unfold entity, call, bind, record, fail, ret; simpl. rewrite Hring; simpl.
  by destruct (Entity_Serialize e _) as [body [err|]].
Qed.

(** C6.  For a stored record that decodes (the storage has an entry for
    the name, the entry is the JSON of a record, the record's key parses
    into at least one entity, and the library serializes the public
    packets of the first), read answers exactly the payload of three
    fields: [fingerprint], the lowercase hexadecimal text (40
    characters) of the 20-byte fingerprint of the primary public key,
    from which these bytes are read back; [public_key], the armored text
    of the entity's public packets, none of which is a private key
    packet; [exportable], the flag of the record. *)
Theorem read_payload data w (en : StorageEntry) entry (e : Entity)
        (rest : list Entity) (body : Buffer) :
  Get (storage w) ("key/" +:+ data_name data) = inr (Some en) ->
  DecodeJSON (Value en) = inr entry ->
  ReadKeyRing (SerializedKey entry) = inr (e :: rest) ->
  Entity_Serialize e ([] : Buffer) = (body, None) ->
  let fingerprint := hex.EncodeToString (Fingerprint (PrimaryKey e)) in
  snd (pathKeyRead data w)
  = Ok (Some (DataResponse
      {[ "fingerprint" := DString fingerprint;
         "public_key" := DString (armor_Encode PublicKeyType body);
         "exportable" := DBool (Exportable entry) ]}))
  /\ String.length fingerprint = 40%nat
  /\ hex.all_chars hex.lower_hex_char fingerprint = true
  /\ unhex.decode fingerprint = Some (Fingerprint (PrimaryKey e))
  /\ (exists chunks,
        Forall2 (fun p chunk => encoding p = inr chunk) (publicPackets e) chunks
        /\ body = concat chunks)
  /\ forallb (fun p => negb (isPrivatePacket p)) (publicPackets e) = true.
Proof.
  intros Hget Hjson Hring Hser fingerprint. repeat split.
  - rewrite (read_decoded _ _ _ _ _ _ Hget Hjson Hring). by rewrite Hser.
  - unfold fingerprint. by rewrite EncodeToString_length, Fingerprint_len.
  - apply EncodeToString_lower.
  - apply unhex_decode_EncodeToString.
  - destruct (emit_Buffer _ _ _ Hser) as (chunks & Hall & ->). by exists chunks.
  - apply publicPackets_public.
Qed.

(** The calls of the read of a record that decodes: one get of the
    prefixed name, then one parse of the record's key. *)
Lemma read_decoded_calls data w (en : StorageEntry) entry (e : Entity)
      (rest : list Entity) :
  Get (storage w) ("key/" +:+ data_name data) = inr (Some en) ->
  DecodeJSON (Value en) = inr entry ->
  ReadKeyRing (SerializedKey entry) = inr (e :: rest) ->
  calls (fst (pathKeyRead data w))
  = calls w ++ [CallGet ("key/" +:+ data_name data);
                CallReadKeyRing (SerializedKey entry)].
Proof.
  intros Hget Hjson Hring.
  unfold pathKeyRead, bind. rewrite (key_found _ _ _ _ Hget Hjson).
  unfold entity, call, bind, record, fail, ret; simpl. rewrite Hring; simpl.
  destruct (Entity_Serialize e _) as [body [err|]]; simpl;
    by rewrite <- app_assoc.
Qed.

(** C7.  Read is decided by the stored bytes.  A read leaves the storage
    as it was, so a second read of the same name answers what the first
    answered, the fingerprint included.  The fingerprint is computed
    from the entity decoded from the record's key: two records with the
    same key bytes, in whatever storage and with whatever flag, give the
    same fingerprint; the record has no field for it.  For a record that
    decodes, the fingerprint either read answers is the hexadecimal text
    of the fingerprint of the primary key of the first entity parsed from
    the record's key bytes, and each of the two reads gets the entry from
    the storage and parses the key bytes anew. *)
Theorem read_fingerprint_stable data w :
  storage (fst (pathKeyRead data w)) = storage w
  /\ snd (pathKeyRead data (fst (pathKeyRead data w))) = snd (pathKeyRead data w)
  /\ (forall data' (w' : World St) (en en' : StorageEntry) entry entry',
        Get (storage w) ("key/" +:+ data_name data) = inr (Some en) ->
        DecodeJSON (Value en) = inr entry ->
        Get (storage w') ("key/" +:+ data_name data') = inr (Some en') ->
        DecodeJSON (Value en') = inr entry' ->
        SerializedKey entry = SerializedKey entry' ->
        responseField "fingerprint" (snd (pathKeyRead data w))
        = responseField "fingerprint" (snd (pathKeyRead data' w')))
  /\ (forall (en : StorageEntry) entry (e : Entity) (rest : list Entity)
             (body : Buffer),
        Get (storage w) ("key/" +:+ data_name data) = inr (Some en) ->
        DecodeJSON (Value en) = inr entry ->
        ReadKeyRing (SerializedKey entry) = inr (e :: rest) ->
        Entity_Serialize e ([] : Buffer) = (body, None) ->
        let fingerprint := hex.EncodeToString (Fingerprint (PrimaryKey e)) in
        let k := "key/" +:+ data_name data in
        responseField "fingerprint" (snd (pathKeyRead data w))
        = Some (DString fingerprint)
        /\ responseField "fingerprint"
             (snd (pathKeyRead data (fst (pathKeyRead data w))))
           = Some (DString fingerprint)
        /\ unhex.decode fingerprint = Some (Fingerprint (PrimaryKey e))
        /\ calls (fst (pathKeyRead data (fst (pathKeyRead data w))))
           = calls w ++ [CallGet k; CallReadKeyRing (SerializedKey entry);
                         CallGet k; CallReadKeyRing (SerializedKey entry)]).
Proof.
  split; [apply read_keeps_storage | split; [|split]].
  - apply read_from_Get. by rewrite read_keeps_storage.
  - intros data' w' en en' entry entry' Hget Hjson Hget' Hjson' Hkey.
    unfold pathKeyRead, bind.
    rewrite (key_found _ _ _ _ Hget Hjson), (key_found _ _ _ _ Hget' Hjson').
    unfold entity, call, bind, record, fail, ret; simpl. rewrite <- Hkey.
    destruct (ReadKeyRing _) as [err|[|e rest]]; simpl; try done.
    destruct (Entity_Serialize e _) as [body [err|]]; simpl; first done.
    by rewrite !lookup_insert_eq.
  - intros en entry e rest body Hget Hjson Hring Hser fingerprint k.
    assert (Hget2 : Get (storage (fst (pathKeyRead data w))) k = inr (Some en))
      by (by rewrite read_keeps_storage).
    assert (Hfirst : responseField "fingerprint" (snd (pathKeyRead data w))
                     = Some (DString fingerprint)).
    { rewrite (read_decoded _ _ _ _ _ _ Hget Hjson Hring), Hser; simpl.
      by rewrite lookup_insert_eq. }
    split; [exact Hfirst | split; [|split]].
    + rewrite (read_decoded _ _ _ _ _ _ Hget2 Hjson Hring), Hser; simpl.
      by rewrite lookup_insert_eq.
    + apply unhex_decode_EncodeToString.
    + rewrite (read_decoded_calls _ _ _ _ _ _ Hget2 Hjson Hring).
      rewrite (read_decoded_calls _ _ _ _ _ _ Hget Hjson Hring).
      by rewrite <- app_assoc.
Qed.

(** C8.  For a name without stored record read returns no response and
    no error, which is neither an error nor an error response; an error
    of the storage is returned as the handler's error. *)
Theorem read_absent data w :
  (Get (storage w) ("key/" +:+ data_name data) = inr None ->
     pathKeyRead data w = (logged w (CallGet ("key/" +:+ data_name data)), Ok None))
  /\ (forall err,
        Get (storage w) ("key/" +:+ data_name data) = inl err ->
        pathKeyRead data w
        = (logged w (CallGet ("key/" +:+ data_name data)), Err err))
  /\ (forall (err : error) (text : string),
        @Ok (option Response) None <> Err err
        /\ Ok None <> Ok (Some (ErrorResponse text))).
Proof.
  split; [|split].
  - intros Hget. unfold pathKeyRead, key, storage_Get, bind, record; simpl.
    by rewrite Hget.
  - intros err Hget. unfold pathKeyRead, key, storage_Get, bind, record; simpl.
    by rewrite Hget.
  - done.
Qed.

End ReadFacts.

(** ** Delete *)

Section DeleteFacts.
Context `{Storage St}.

(** The delete handler makes one call, the storage's delete of the
    prefixed name, and returns its error if it has one. *)
Lemma delete_calls_storage (data : FieldData) (w : World St) (k : string) :
  k = "key/" +:+ data_name data ->
  pathKeyDelete data w
  = ({| storage := fst (Delete (storage w) k); calls := calls w ++ [CallDelete k] |},
     match snd (Delete (storage w) k) with
     | Some err => Err err
     | None => Ok None
     end).
Proof.
  intros ->. unfold pathKeyDelete, storage_Delete, bind, record, ret; simpl.
  by destruct (Delete _ _) as [s [err|]].
Qed.

End DeleteFacts.

(** C9.  Delete is idempotent.  On the in-memory storage, deleting a name
    that has no record returns no error and leaves the storage as it was;
    and after any delete, a second delete of the same name returns no
    error either and changes nothing. *)
Theorem delete_idempotent (data : FieldData) (w : World InmemStorage) :
  let k := "key/" +:+ data_name data in
  let w1 := fst (pathKeyDelete data w) in
  (entries (storage w) !! k = None ->
     pathKeyDelete data w = (logged w (CallDelete k), Ok None))
  /\ snd (pathKeyDelete data w) = Ok None
  /\ entries (storage w1) !! k = None
  /\ pathKeyDelete data w1 = (logged w1 (CallDelete k), Ok None).
Proof.
  intros k w1.
  assert (Habsent : forall w0 : World InmemStorage,
    entries (storage w0) !! k = None ->
    pathKeyDelete data w0 = (logged w0 (CallDelete k), Ok None)).
  { intros w0 Hnone. rewrite (delete_calls_storage data w0 k eq_refl); simpl.
    rewrite (delete_id _ _ Hnone). unfold logged. by destruct (storage w0). }
  assert (Hw1 : entries (storage w1) !! k = None).
  { unfold w1. rewrite (delete_calls_storage data w k eq_refl); simpl.
    apply lookup_delete_eq. }
  split; [apply Habsent | split; [|split]].
  - by rewrite (delete_calls_storage data w k eq_refl).
  - done.
  - by apply Habsent.
Qed.

(** ** The properties at work on the small instance *)

Section Witnesses.
Import Toy.

Example import_public_only :
  snd (pathKeyCreate (request "k" (armored [Byte.x99; Byte.x41]) false 2048)
                     emptyWorld)
  = Ok (Some NotSerializableResponse).
Proof. vm_compute. reflexivity. Qed.

Example import_then_read :
  snd (pathKeyRead (request "k" "" true 2048)
        (fst (pathKeyCreate (request "k" (armored ring2) false 2048) emptyWorld)))
  = Ok (Some (DataResponse
      {[ "fingerprint" := DString "4141414141414141414141414141414141414141";
         "public_key" := DString (armored [Byte.x99; Byte.x41]);
         "exportable" := DBool true ]})).
Proof. vm_compute. reflexivity. Qed.

Lemma first_entity_only_witness :
  let data := request "k" (armored ring2) false 2048 in
  let entry := {| SerializedKey := ring2; Exportable := true |} in
  ReadKeyRing ring2 = inr [entityOf Byte.x41; entityOf Byte.x42]
  /\ entity entry emptyWorld
     = (logged emptyWorld (CallReadKeyRing ring2), Ok (entityOf Byte.x41))
  /\ snd (pathKeyCreate data emptyWorld) = Ok None
  /\ entries (storage (fst (pathKeyCreate data emptyWorld))) !! "key/k"
     = Some [Byte.x01; Byte.x95; Byte.x41].
Proof.
  intros data entry.
  destruct (first_entity_only data emptyWorld entry
              (entityOf Byte.x41) [entityOf Byte.x42]) as [Hread Himport].
  split; [reflexivity | split; [apply Hread; reflexivity |]].
  rewrite Himport; [| reflexivity | discriminate | reflexivity].
  split; vm_compute; reflexivity.
Defined.

Lemma create_key_size_floor_witness :
  pathKeyCreate (request "k" "" true 1024) emptyWorld
  = (emptyWorld, Ok (Some KeyTooSmallResponse))
  /\ pathKeyCreate (request "k" "" true 2047) emptyWorld
     = (emptyWorld, Ok (Some KeyTooSmallResponse))
  /\ snd (pathKeyCreate (request "k" "" true 2048) emptyWorld)
     <> Ok (Some KeyTooSmallResponse).
Proof.
  split; [|split].
  - apply (create_key_size_floor (request "k" "" true 1024) emptyWorld);
      [reflexivity | simpl; lia].
  - apply (create_key_size_floor (request "k" "" true 2047) emptyWorld);
      [reflexivity | simpl; lia].
  - apply (create_key_size_floor (request "k" "" true 2048) emptyWorld);
      [reflexivity | simpl; lia].
Defined.

Lemma create_missing_key_witness :
  pathKeyCreate (request "k" "" false 2048) emptyWorld
  = (emptyWorld, Ok (Some MissingKeyResponse)).
Proof.
  apply (create_missing_key (request "k" "" false 2048) emptyWorld);
    reflexivity.
Defined.

Lemma create_all_or_nothing_witness :
  let data := request "k" (armored [Byte.x99; Byte.x41]) false 2048 in
  let w := stored "k" true ring2 in
  CreateFailure data
  /\ storage (fst (pathKeyCreate data w)) = storage w
  /\ puts (calls (fst (pathKeyCreate data w))) = puts (calls w)
  /\ succeeded (snd (pathKeyCreate data w)) = false.
Proof.
  intros data w.
  assert (Hfail : CreateFailure data).
  { apply (NotSerializable data (publicOf Byte.x41) []
             [] errNoPrivateKey); [reflexivity | discriminate | reflexivity |].
    vm_compute. reflexivity. }
  split; [exact Hfail | exact (create_all_or_nothing data w Hfail)].
Defined.

Lemma read_payload_witness :
  let data := request "k" "" true 2048 in
  let w := stored "k" true Samples.ringAB in
  snd (pathKeyRead data w)
  = Ok (Some (DataResponse
      {[ "fingerprint" := DString Samples.fingerprintAB;
         "public_key" := DString (armored [Byte.x99; Byte.xab]);
         "exportable" := DBool true ]}))
  /\ unhex.decode Samples.fingerprintAB = Some (repeat Byte.xab 20).
Proof.
  intros data w.
  pose proof (read_payload data w
           {| Key := "key/k"; Value := Byte.x01 :: Samples.ringAB |}
           {| SerializedKey := Samples.ringAB; Exportable := true |}
           (entityOf Byte.xab) [entityOf Byte.x42] [Byte.x99; Byte.xab])
    as Hread.
  destruct Hread as (Hpayload & _ & _ & Hback & _);
    [vm_compute; reflexivity | vm_compute; reflexivity
    | vm_compute; reflexivity | vm_compute; reflexivity |].
  split; [exact Hpayload | exact Hback].
Defined.

Lemma read_fingerprint_stable_witness :
  let data := request "k" "" true 2048 in
  let data' := request "other" "" true 2048 in
  let w := stored "k" true Samples.ringAB in
  let w' := stored "other" false Samples.ringAB in
  responseField "fingerprint" (snd (pathKeyRead data w))
  = Some (DString Samples.fingerprintAB)
  /\ responseField "fingerprint" (snd (pathKeyRead data w))
     = responseField "fingerprint" (snd (pathKeyRead data' w'))
  /\ responseField "fingerprint"
       (snd (pathKeyRead data (fst (pathKeyRead data w))))
     = Some (DString Samples.fingerprintAB)
  /\ calls (fst (pathKeyRead data (fst (pathKeyRead data w))))
     = [CallGet "key/k"; CallReadKeyRing Samples.ringAB;
        CallGet "key/k"; CallReadKeyRing Samples.ringAB].
Proof.
  intros data data' w w'.
  destruct (read_fingerprint_stable data w) as (_ & _ & Hsame & Hcomputed).
  destruct (Hcomputed
              {| Key := "key/k"; Value := Byte.x01 :: Samples.ringAB |}
              {| SerializedKey := Samples.ringAB; Exportable := true |}
              (entityOf Byte.xab) [entityOf Byte.x42] [Byte.x99; Byte.xab])
    as (Hfirst & Hsecond & _ & Hcalls);
    [vm_compute; reflexivity | vm_compute; reflexivity
    | vm_compute; reflexivity | vm_compute; reflexivity |].
  split; [exact Hfirst | split; [| split; [exact Hsecond | exact Hcalls]]].
  apply (Hsame data' w'
           {| Key := "key/k"; Value := Byte.x01 :: Samples.ringAB |}
           {| Key := "key/other"; Value := Byte.x00 :: Samples.ringAB |}
           {| SerializedKey := Samples.ringAB; Exportable := true |}
           {| SerializedKey := Samples.ringAB; Exportable := false |});
    vm_compute; reflexivity.
Defined.

Lemma read_absent_witness :
  pathKeyRead (request "k" "" true 2048) emptyWorld
  = (logged emptyWorld (CallGet "key/k"), Ok None)
  /\ pathKeyRead (request "k" "" true 2048) down
     = (logged down (CallGet "key/k"), Err "connection refused").
Proof.
  split.
  - apply (proj1 (read_absent (request "k" "" true 2048) emptyWorld)).
    vm_compute. reflexivity.
  - apply (proj1 (proj2 (read_absent (request "k" "" true 2048) down))).
    reflexivity.
Defined.

Lemma delete_idempotent_witness :
  entries (storage emptyWorld) !! "key/k" = None
  /\ pathKeyDelete (request "k" "" true 2048) emptyWorld
     = (logged emptyWorld (CallDelete "key/k"), Ok None).
Proof.
  split; [vm_compute; reflexivity |].
  apply (proj1 (delete_idempotent (request "k" "" true 2048) emptyWorld)).
  vm_compute. reflexivity.
Defined.

Lemma index_zero_unchecked_witness :
  let data := request "k" (armored []) false 2048 in
  let entry := {| SerializedKey := []; Exportable := false |} in
  ReadKeyRing [] = inr []
  /\ ReadArmoredKeyRing (armored []) = inr []
  /\ entity entry emptyWorld
     = (logged emptyWorld (CallReadKeyRing []), Panic indexOutOfRange)
  /\ pathKeyCreate data emptyWorld
     = (logged emptyWorld (CallReadArmoredKeyRing (armored [])),
        Panic indexOutOfRange).
Proof.
  intros data entry.
  destruct (index_zero_unchecked data emptyWorld entry) as (Hread & Himport & _).
  split; [reflexivity | split; [reflexivity | split]].
  - apply Hread. reflexivity.
  - apply Himport; [reflexivity | discriminate | reflexivity].
Defined.

End Witnesses.

(** * Further properties *)

(** ** The serializer on a buffer *)

Section BufferFacts.
Context `{Packets}.

Lemma serializePrivateWithoutSigning_emit `{Writer W} (w : W) (e : Entity) :
  serializePrivateWithoutSigning w e
  = match emit (privatePackets e) w with
    | (w', Some err) => (w', Some err)
    | (w', None) =>
        (w', if carriesPrivateKey e then None else Some errNoPrivateKey)
    end.
Proof.
  unfold serializePrivateWithoutSigning, privatePackets, carriesPrivateKey.
  destruct (PrivateKey e) as [pk|]; simpl.
  - destruct (Serialize (PrivateKeyPacket pk) w) as [w1 [err|]]; simpl;
      first done.
    by rewrite afterPrimary_emit.
  - by rewrite afterPrimary_emit.
Qed.

(** What is written into a buffer does not depend on what the buffer
    holds. *)
Lemma emit_Buffer_shift (ps : list Packet) (buf : Buffer) :
  emit ps buf
  = (buf ++ fst (emit ps ([] : Buffer)), snd (emit ps ([] : Buffer))).
Proof.
  revert buf.
  induction ps as [|p ps IH]; intros buf; simpl.
  { by rewrite app_nil_r. }
  unfold Serialize. destruct (encoding p) as [err|chunk]; simpl.
  { by rewrite app_nil_r. }
  rewrite (IH (buf ++ chunk)), (IH chunk). simpl. by rewrite app_assoc.
Qed.

(** X1.  On a [bytes.Buffer] the serializer only appends: what the buffer
    held stays in front, and what is appended, like the error returned,
    is what the serializer gives on an empty buffer. *)
Theorem serializePrivateWithoutSigning_appends (buf : Buffer) (e : Entity) :
  serializePrivateWithoutSigning buf e
  = (buf ++ fst (serializePrivateWithoutSigning ([] : Buffer) e),
     snd (serializePrivateWithoutSigning ([] : Buffer) e)).
Proof.
  rewrite !serializePrivateWithoutSigning_emit.
  rewrite (emit_Buffer_shift _ buf).
  by destruct (emit (privatePackets e) ([] : Buffer)) as [out [err|]].
Qed.

Lemma serialize_ok_emit (e : Entity) (out : Buffer) :
  serializePrivateWithoutSigning ([] : Buffer) e = (out, None) ->
  carriesPrivateKey e = true
  /\ emit (privatePackets e) ([] : Buffer) = (out, None).
Proof.
  rewrite serializePrivateWithoutSigning_emit.
  destruct (emit (privatePackets e) ([] : Buffer)) as [out' [err|]];
    first done.
  destruct (carriesPrivateKey e); last done.
  by intros [= <-].
Qed.

(** X2.  When the serializer returns no error, the entity carries
    private material, every packet of its layout could be encoded, and the
    buffer holds these encodings one after the other, nothing else. *)
Theorem serializePrivateWithoutSigning_ok (e : Entity) (out : Buffer) :
  serializePrivateWithoutSigning ([] : Buffer) e = (out, None) ->
  carriesPrivateKey e = true
  /\ exists chunks,
       Forall2 (fun p chunk => encoding p = inr chunk) (privatePackets e) chunks
       /\ out = concat chunks.
Proof.
  intros Hser. destruct (serialize_ok_emit e out Hser) as [Hpriv Hemit].
  split; first done.
  destruct (emit_Buffer _ _ _ Hemit) as (chunks & Hall & ->). by exists chunks.
Qed.

(** X3.  An entity without private material is never serialized with
    success: the serializer returns an error whatever the writer is. *)
Theorem serializePrivateWithoutSigning_public_only `{Writer W} (w : W) (e : Entity) :
  carriesPrivateKey e = false ->
  is_Some (snd (serializePrivateWithoutSigning w e)).
Proof.
  intros Hpub. rewrite serializePrivateWithoutSigning_emit, Hpub.
  destruct (emit (privatePackets e) w) as [w' [err|]]; simpl; eauto.
Qed.

End BufferFacts.

(** ** Hexadecimal text loses nothing *)

Section UnhexFacts.

(** X4.  The hexadecimal text of a fingerprint determines its bytes: two
    byte sequences with the same text are equal. *)
Theorem EncodeToString_inj (a b : bytes) :
  hex.EncodeToString a = hex.EncodeToString b -> a = b.
Proof.
  intros Heq.
  pose proof (unhex_decode_EncodeToString a) as Ha.
  rewrite Heq, unhex_decode_EncodeToString in Ha. by injection Ha.
Qed.

End UnhexFacts.

(** ** What create leaves behind *)

Section CreateRun.
Context `{OpenPGP} `{JSONCodec} `{Storage St}.

Implicit Types (data : FieldData) (w : World St).

Lemma storeKey_run (name : string) (exportable : bool) (buf : Buffer)
      (value : bytes) w :
  EncodeJSON {| SerializedKey := buf; Exportable := exportable |} = inr value ->
  let en := {| Key := "key/" +:+ name; Value := value |} in
  storeKey name exportable buf w
  = ({| storage := fst (Put (storage w) en); calls := calls w ++ [CallPut en] |},
     match snd (Put (storage w) en) with
     | Some err => Err err
     | None => Ok None
     end).
Proof.
  intros Henc en. unfold storeKey. rewrite Henc.
  unfold bind, storage_Put, bind, record, ret; simpl. fold en.
  by destruct (Put (storage w) en) as [s [err|]].
Qed.

Lemma puts_snoc (cs : list Call) (en : StorageEntry) :
  puts (cs ++ [CallPut en]) = puts cs ++ [en].
Proof. unfold puts. by rewrite flat_map_app. Qed.

Lemma puts_skip (cs : list Call) (c : Call) :
  (forall en, c <> CallPut en) -> puts (cs ++ [c]) = puts cs.
Proof.
  intros Hc. unfold puts. rewrite flat_map_app; simpl.
  destruct c; try by rewrite !app_nil_r. by destruct (Hc en).
Qed.

(** The run of a create request, read off [recordToPut]: either the
    record is put, once, as the last call, or nothing is put and the
    request did not end well. *)
Lemma create_run data w :
  match recordToPut data with
  | Some en =>
      storage (fst (pathKeyCreate data w)) = fst (Put (storage w) en)
      /\ puts (calls (fst (pathKeyCreate data w))) = puts (calls w) ++ [en]
      /\ snd (pathKeyCreate data w)
         = match snd (Put (storage w) en) with
           | Some err => Err err
           | None => Ok None
           end
  | None =>
      storage (fst (pathKeyCreate data w)) = storage w
      /\ puts (calls (fst (pathKeyCreate data w))) = puts (calls w)
      /\ succeeded (snd (pathKeyCreate data w)) = false
  end.
Proof.
  unfold recordToPut, keyMaterial.
  destruct (data_generate data) eqn:Hgen.
  - destruct (Z.ltb_spec (data_key_bits data) 2048) as [Hbits|Hbits].
    { by rewrite create_too_small. }
    rewrite create_generate by done.
    unfold bind, call, bind, record, fail, ret; simpl.
    destruct (NewEntity _ _ _ _) as [err|e]; simpl.
    { by rewrite !puts_skip. }
    destruct (SerializePrivate e) as [err|buf]; simpl.
    { by rewrite !puts_skip. }
    destruct (EncodeJSON _) as [err|value] eqn:Henc.
    { unfold storeKey. rewrite Henc; simpl. by rewrite !puts_skip. }
    rewrite (storeKey_run _ _ _ _ _ Henc); simpl.
    by rewrite puts_snoc, !puts_skip.
  - destruct (decide (data_key data = "")) as [Hkey|Hkey].
    { rewrite bool_decide_eq_true_2 by done. by rewrite create_no_key. }
    rewrite bool_decide_eq_false_2 by done.
    rewrite create_import by done.
    destruct (ReadArmoredKeyRing (data_key data)) as [err|[|e rest]]; simpl.
    { by rewrite !puts_skip. }
    { by rewrite !puts_skip. }
    unfold bind; simpl.
    destruct (serializePrivateWithoutSigning _ e) as [buf [err|]]; simpl.
    { by rewrite !puts_skip. }
    destruct (EncodeJSON _) as [err|value] eqn:Henc.
    { unfold storeKey. rewrite Henc; simpl. by rewrite !puts_skip. }
    rewrite (storeKey_run _ _ _ _ _ Henc); simpl.
    by rewrite puts_snoc, !puts_skip.
Qed.

(** A put of [en] shows that [en] is the record of the request. *)
Lemma create_put_record data w (en : StorageEntry) :
  puts (calls (fst (pathKeyCreate data w))) = puts (calls w) ++ [en] ->
  recordToPut data = Some en.
Proof.
  intros Hput. pose proof (create_run data w) as Hrun.
  destruct (recordToPut data) as [en'|].
  - destruct Hrun as (_ & Hput' & _). rewrite Hput' in Hput.
    apply app_inv_head in Hput. by injection Hput as ->.
  - destruct Hrun as (_ & Hput' & _). rewrite Hput' in Hput.
    rewrite <- (app_nil_r (puts (calls w))) in Hput at 1.
    by apply app_inv_head in Hput.
Qed.

(** X5.  A record that an import puts holds private material: when the
    create handler, asked to import, puts an entry, the key ring parsed
    into a first entity that carries a private key, the entity was
    serialized without error, and the entry is the JSON of that
    serialization and of the request's flag, under the prefixed name. *)
Theorem import_put_private data w (en : StorageEntry) :
  data_generate data = false ->
  puts (calls (fst (pathKeyCreate data w))) = puts (calls w) ++ [en] ->
  exists (e : Entity) (rest : list Entity) (buf : Buffer),
    ReadArmoredKeyRing (data_key data) = inr (e :: rest)
    /\ serializePrivateWithoutSigning ([] : Buffer) e = (buf, None)
    /\ carriesPrivateKey e = true
    /\ EncodeJSON {| SerializedKey := buf; Exportable := data_exportable data |}
       = inr (Value en)
    /\ Key en = "key/" +:+ data_name data.
Proof.
  intros Hgen Hput. apply create_put_record in Hput.
  unfold recordToPut, keyMaterial in Hput. rewrite Hgen in Hput.
  destruct (bool_decide (data_key data = "")); first done.
  destruct (ReadArmoredKeyRing (data_key data)) as [err|[|e rest]] eqn:Hring;
    try done.
  destruct (serializePrivateWithoutSigning _ e) as [buf [err|]] eqn:Hser;
    first done.
  destruct (EncodeJSON _) as [err|value] eqn:Henc; first done.
  injection Hput as <-. exists e, rest, buf.
  repeat split; try done.
  by destruct (serialize_ok_emit e buf Hser).
Qed.

(** X6.  A record that a generation puts was generated above the size
    floor: when the create handler, asked to generate, puts an entry,
    [key_bits] is at least 2048, the generator was given the real name,
    the comment, the email and that size, and the entry is the JSON of the
    signing serialization of the entity it gave. *)
Theorem generate_put_floor data w (en : StorageEntry) :
  data_generate data = true ->
  puts (calls (fst (pathKeyCreate data w))) = puts (calls w) ++ [en] ->
  2048 <= data_key_bits data
  /\ exists (e : Entity) (buf : bytes),
       NewEntity (data_real_name data) (data_comment data) (data_email data)
                 (data_key_bits data) = inr e
       /\ SerializePrivate e = inr buf
       /\ EncodeJSON {| SerializedKey := buf; Exportable := data_exportable data |}
          = inr (Value en)
       /\ Key en = "key/" +:+ data_name data.
Proof.
  intros Hgen Hput. apply create_put_record in Hput.
  unfold recordToPut, keyMaterial in Hput. rewrite Hgen in Hput.
  destruct (Z.ltb_spec (data_key_bits data) 2048) as [Hbits|Hbits]; first done.
  split; first done.
  destruct (NewEntity _ _ _ _) as [err|e] eqn:Hnew; first done.
  destruct (SerializePrivate e) as [err|buf] eqn:Hser; first done.
  destruct (EncodeJSON _) as [err|value] eqn:Henc; first done.
  injection Hput as <-. by exists e, buf.
Qed.

(** X7.  On the import path the handler returns an error (rather than an
    error response) only after the key was parsed and serialized: a key
    that is missing, does not parse or cannot be serialized is never
    answered with an error of the handler. *)
Theorem import_error_after_serialization data w (err : error) :
  data_generate data = false ->
  snd (pathKeyCreate data w) = Err err ->
  exists (e : Entity) (rest : list Entity) (buf : Buffer),
    ReadArmoredKeyRing (data_key data) = inr (e :: rest)
    /\ serializePrivateWithoutSigning ([] : Buffer) e = (buf, None).
Proof.
  intros Hgen.
  destruct (decide (data_key data = "")) as [Hkey|Hkey].
  { by rewrite create_no_key. }
  rewrite create_import by done.
  destruct (ReadArmoredKeyRing (data_key data)) as [perr|[|e rest]] eqn:Hring;
    try done.
  unfold bind; simpl.
  destruct (serializePrivateWithoutSigning _ e) as [buf [serr|]] eqn:Hser;
    first done.
  intros _. by exists e, rest, buf.
Qed.

(** X8.  On import the identity fields and the key size are not looked
    at: two requests that agree on name, key and flag are handled alike. *)
Theorem import_ignores_identity data data' w :
  data_generate data = false ->
  data_generate data' = false ->
  data_name data' = data_name data ->
  data_key data' = data_key data ->
  data_exportable data' = data_exportable data ->
  pathKeyCreate data' w = pathKeyCreate data w.
Proof.
  intros Hgen Hgen' Hname Hkey Hexp. unfold pathKeyCreate.
  by rewrite Hgen, Hgen', Hname, Hkey, Hexp.
Qed.

(** X9.  On generation the supplied key is not looked at: two requests
    that agree on every field but [key] are handled alike. *)
Theorem generate_ignores_key data data' w :
  data_generate data = true ->
  data_generate data' = true ->
  data_name data' = data_name data ->
  data_real_name data' = data_real_name data ->
  data_email data' = data_email data ->
  data_comment data' = data_comment data ->
  data_key_bits data' = data_key_bits data ->
  data_exportable data' = data_exportable data ->
  pathKeyCreate data' w = pathKeyCreate data w.
Proof.
  intros Hgen Hgen' Hname Hreal Hemail Hcomment Hbits Hexp. unfold pathKeyCreate.
  by rewrite Hgen, Hgen', Hname, Hreal, Hemail, Hcomment, Hbits, Hexp.
Qed.

Lemma create_generate_first_call data w :
  data_generate data = true ->
  2048 <= data_key_bits data ->
  exists cs, calls (fst (pathKeyCreate data w))
             = calls w ++ CallNewEntity (data_key_bits data) :: cs.
Proof.
  intros Hgen Hbits. rewrite create_generate by done.
  unfold bind, call, record, bind, storeKey, storage_Put, bind, record, logged, fail, ret;
    simpl.
  destruct (NewEntity _ _ _ _) as [err|e]; simpl; first by exists [].
  destruct (SerializePrivate e) as [err|buf]; simpl.
  { eexists. by rewrite <- app_assoc. }
  destruct (EncodeJSON _) as [err|value]; simpl.
  { eexists. by rewrite <- app_assoc. }
  destruct (Put _ _) as [s [err|]]; simpl; eexists; by rewrite <- !app_assoc.
Qed.

(** X10.  The defaults of the schema pass the size floor: a request that
    sets neither [key_bits] nor [generate] is a generation of 2048 bits,
    and the generator is the first collaborator called. *)
Theorem default_request_generates (r : RawFields) w :
  raw_key_bits r = None ->
  raw_generate r = None ->
  data_generate (fieldData r) = true
  /\ data_key_bits (fieldData r) = 2048
  /\ exists cs, calls (fst (pathKeyCreate (fieldData r) w))
                = calls w ++ CallNewEntity 2048 :: cs.
Proof.
  intros Hbits Hgen.
  assert (Hg : data_generate (fieldData r) = true)
    by (simpl; rewrite Hgen; reflexivity).
  assert (Hb : data_key_bits (fieldData r) = 2048)
    by (simpl; rewrite Hbits; reflexivity).
  split; [done | split; [done |]].
  destruct (create_generate_first_call (fieldData r) w Hg) as [cs Hcs];
    first lia.
  exists cs. by rewrite Hcs, Hb.
Qed.

(** X11.  A key supplied without setting [generate] to false is not
    imported: [generate] defaults to true, and the request is handled as
    if it had supplied no key or any other. *)
Theorem key_without_generate_ignored (r : RawFields) (k : option string) w :
  raw_generate r = None ->
  pathKeyCreate (fieldData (setKey r k)) w = pathKeyCreate (fieldData r) w.
Proof.
  intros Hgen. unfold pathKeyCreate; simpl. by rewrite Hgen.
Qed.

End CreateRun.

(** ** Read never answers an error response *)

Section ReadTiers.
Context `{OpenPGP} `{JSONCodec} `{Storage St}.

(** X12.  Whatever goes wrong in a read is returned as the error of the
    handler: an error of the storage's get, of the JSON decoding of the
    entry, of the parsing of the record's key, or of the serialization
    of the entity, each gives that error and no response.  Read never
    answers an error response. *)
Theorem read_never_error_response (data : FieldData) (w : World St) :
  let k := "key/" +:+ data_name data in
  (forall err, Get (storage w) k = inl err -> snd (pathKeyRead data w) = Err err)
  /\ (forall (en : StorageEntry) err,
        Get (storage w) k = inr (Some en) ->
        DecodeJSON (Value en) = inl err ->
        snd (pathKeyRead data w) = Err err)
  /\ (forall (en : StorageEntry) (entry : keyEntry) err,
        Get (storage w) k = inr (Some en) ->
        DecodeJSON (Value en) = inr entry ->
        ReadKeyRing (SerializedKey entry) = inl err ->
        snd (pathKeyRead data w) = Err err)
  /\ (forall (en : StorageEntry) (entry : keyEntry) (e : Entity)
             (rest : list Entity) (body : Buffer) err,
        Get (storage w) k = inr (Some en) ->
        DecodeJSON (Value en) = inr entry ->
        ReadKeyRing (SerializedKey entry) = inr (e :: rest) ->
        Entity_Serialize e ([] : Buffer) = (body, Some err) ->
        snd (pathKeyRead data w) = Err err)
  /\ isErrorResponse (snd (pathKeyRead data w)) = false.
Proof.
  intros k. split; [|split; [|split; [|split]]].
  - intros err Hget.
    unfold pathKeyRead, key, storage_Get, bind, record; simpl. fold k.
    by rewrite Hget.
  - intros en err Hget Hjson.
    unfold pathKeyRead, key, storage_Get, bind, record, fail; simpl. fold k.
    rewrite Hget; simpl. by rewrite Hjson.
  - intros en entry err Hget Hjson Hring.
    unfold pathKeyRead, bind. rewrite (key_found _ _ _ _ Hget Hjson).
    unfold entity, call, bind, record, fail; simpl. by rewrite Hring.
  - intros en entry e rest body err Hget Hjson Hring Hser.
    rewrite (read_decoded _ _ _ _ _ _ Hget Hjson Hring). by rewrite Hser.
  - unfold pathKeyRead, key, entity, storage_Get, call, bind, record, fail, ret;
      simpl.
    destruct (Get _ _) as [err|[en|]]; simpl; try done.
    destruct (DecodeJSON _) as [err|entry]; simpl; try done.
    destruct (ReadKeyRing _) as [err|[|e rest]]; simpl; try done.
    by destruct (Entity_Serialize e _) as [body [err|]].
Qed.

Lemma key_from_Get (name : string) (w : World St) :
  snd (key name w)
  = match Get (storage w) ("key/" +:+ name) with
    | inl err => Err err
    | inr None => Ok None
    | inr (Some en) =>
        match DecodeJSON (Value en) with
        | inl err => Err err
        | inr entry => Ok (Some entry)
        end
    end.
Proof.
  unfold key, storage_Get, bind, record, fail, ret; simpl.
  destruct (Get _ _) as [err|[en|]]; simpl; try done.
  by destruct (DecodeJSON _).
Qed.

Lemma read_of_absent (data : FieldData) (w : World St) :
  Get (storage w) ("key/" +:+ data_name data) = inr None ->
  snd (pathKeyRead data w) = Ok None.
Proof.
  intros Hget. unfold pathKeyRead, key, storage_Get, bind, record; simpl.
  by rewrite Hget.
Qed.

End ReadTiers.

(** ** The handlers together, on the in-memory storage *)

Section InmemFacts.
Context `{OpenPGP} `{JSONCodec}.

Implicit Types (data : FieldData) (w : World InmemStorage).

Lemma prefixed_inj (a b : string) : "key/" +:+ a = "key/" +:+ b -> a = b.
Proof. intros Heq. injection Heq as Heq. exact Heq. Qed.

Lemma recordToPut_Key data (en : StorageEntry) :
  recordToPut data = Some en -> Key en = "key/" +:+ data_name data.
Proof.
  unfold recordToPut. destruct (keyMaterial data) as [buf|]; last done.
  destruct (EncodeJSON _) as [err|value]; first done. by intros [= <-].
Qed.

(** The entries of the storage after a create. *)
Lemma create_entries data w :
  entries (storage (fst (pathKeyCreate data w)))
  = match recordToPut data with
    | Some en => <[Key en := Value en]> (entries (storage w))
    | None => entries (storage w)
    end.
Proof.
  pose proof (create_run data w) as Hrun.
  destruct (recordToPut data) as [en|]; destruct Hrun as (-> & _); done.
Qed.

(** On this storage a create ends well exactly when it has a record to
    put. *)
Lemma create_ok_record data w :
  snd (pathKeyCreate data w) = Ok None -> is_Some (recordToPut data).
Proof.
  intros Hok. pose proof (create_run data w) as Hrun.
  destruct (recordToPut data) as [en|]; first by eauto.
  destruct Hrun as (_ & _ & Hfail). by rewrite Hok in Hfail.
Qed.

(** X13.  What create puts, [key] gets back: if the JSON codec decodes
    what it encodes, then after a create that ended well the record found
    under the name holds the serialized key of the request and the
    request's [exportable] flag. *)
Theorem create_then_key data w :
  (forall (entry : keyEntry) (value : bytes),
     EncodeJSON entry = inr value -> DecodeJSON value = inr entry) ->
  snd (pathKeyCreate data w) = Ok None ->
  exists buf,
    keyMaterial data = Some buf
    /\ snd (key (data_name data) (fst (pathKeyCreate data w)))
       = Ok (Some {| SerializedKey := buf; Exportable := data_exportable data |}).
Proof.
  intros Hcodec Hok.
  destruct (create_ok_record data w Hok) as [en Hrec].
  rewrite key_from_Get; simpl. rewrite create_entries, Hrec.
  unfold recordToPut in Hrec.
  destruct (keyMaterial data) as [buf|]; last done.
  destruct (EncodeJSON _) as [err|value] eqn:Henc; first done.
  injection Hrec as <-. exists buf. split; first done. simpl.
  rewrite lookup_insert_eq; simpl. by rewrite (Hcodec _ _ Henc).
Qed.

(** X14.  After a delete the name has no record: a read of it answers
    absence (no response, no error), whatever was stored before. *)
Theorem delete_then_read data w :
  snd (pathKeyRead data (fst (pathKeyDelete data w))) = Ok None.
Proof.
  apply read_of_absent.
  rewrite (delete_calls_storage data w _ eq_refl); simpl.
  by rewrite lookup_delete_eq.
Qed.

(** X15.  Create touches its own name only: a read of another name
    answers after the create what it answered before. *)
Theorem create_frame data data' w :
  data_name data' <> data_name data ->
  snd (pathKeyRead data' (fst (pathKeyCreate data w)))
  = snd (pathKeyRead data' w).
Proof.
  intros Hname. apply read_from_Get; simpl. rewrite create_entries.
  destruct (recordToPut data) as [en|] eqn:Hrec; last done.
  rewrite (recordToPut_Key _ _ Hrec).
  rewrite lookup_insert_ne; first done.
  intros Heq. apply prefixed_inj in Heq. by destruct Hname.
Qed.

(** X16.  Delete touches its own name only: a read of another name
    answers after the delete what it answered before. *)
Theorem delete_frame data data' w :
  data_name data' <> data_name data ->
  snd (pathKeyRead data' (fst (pathKeyDelete data w)))
  = snd (pathKeyRead data' w).
Proof.
  intros Hname. apply read_from_Get.
  rewrite (delete_calls_storage data w _ eq_refl); simpl.
  rewrite lookup_delete_ne; first done.
  intros Heq. apply prefixed_inj in Heq. by destruct Hname.
Qed.


End InmemFacts.

(** ** The further properties at work on the small instance *)

Section MoreWitnesses.
Import Toy Samples.

Lemma serializePrivateWithoutSigning_ok_witness :
  serializePrivateWithoutSigning ([] : Buffer) alice
  = ([Byte.xb4; Byte.x61; Byte.x6c; Byte.x89; Byte.x10;
      Byte.x95; Byte.x08; Byte.x89; Byte.x11], None)
  /\ carriesPrivateKey alice = true.
Proof.
  assert (Hrun : serializePrivateWithoutSigning ([] : Buffer) alice
                 = ([Byte.xb4; Byte.x61; Byte.x6c; Byte.x89; Byte.x10;
                     Byte.x95; Byte.x08; Byte.x89; Byte.x11], None))
    by (vm_compute; reflexivity).
  split; [exact Hrun |].
  exact (proj1 (serializePrivateWithoutSigning_ok alice _ Hrun)).
Defined.

Lemma serializePrivateWithoutSigning_public_only_witness :
  carriesPrivateKey (publicOf Byte.x41) = false
  /\ is_Some (snd (serializePrivateWithoutSigning ([] : Buffer) (publicOf Byte.x41))).
Proof.
  split; [reflexivity |].
  apply (serializePrivateWithoutSigning_public_only ([] : Buffer) (publicOf Byte.x41)).
  reflexivity.
Defined.

Lemma EncodeToString_inj_witness :
  hex.EncodeToString [Byte.xab; Byte.x0f] = "ab0f"
  /\ [Byte.xab; Byte.x0f] = [Byte.xab; Byte.x0f].
Proof.
  split; [reflexivity |].
  apply (EncodeToString_inj [Byte.xab; Byte.x0f] [Byte.xab; Byte.x0f]).
  reflexivity.
Defined.

Lemma import_put_private_witness :
  let data := importRing "k" true in
  let en := {| Key := "key/k"; Value := [Byte.x01; Byte.x95; Byte.x41] |} in
  puts (calls (fst (pathKeyCreate data emptyWorld))) = [en]
  /\ exists (e : Entity) (rest : list Entity) (buf : Buffer),
       ReadArmoredKeyRing (data_key data) = inr (e :: rest)
       /\ serializePrivateWithoutSigning ([] : Buffer) e = (buf, None)
       /\ carriesPrivateKey e = true
       /\ EncodeJSON {| SerializedKey := buf; Exportable := true |}
          = inr (Value en)
       /\ Key en = "key/k".
Proof.
  intros data en.
  split; [vm_compute; reflexivity |].
  apply (import_put_private data emptyWorld en);
    [reflexivity | vm_compute; reflexivity].
Defined.

Lemma generate_put_floor_witness :
  let data := request "k" "" true 4096 in
  let en := {| Key := "key/k";
               Value := [Byte.x01; Byte.x95; Byte.x01; Byte.xb4; Byte.x41;
                         Byte.x6c; Byte.x69; Byte.x63; Byte.x65; Byte.x89;
                         Byte.x13] |} in
  puts (calls (fst (pathKeyCreate data emptyWorld))) = [en]
  /\ 2048 <= data_key_bits data.
Proof.
  intros data en.
  split; [vm_compute; reflexivity |].
  apply (generate_put_floor data emptyWorld en);
    [reflexivity | vm_compute; reflexivity].
Defined.

Lemma import_error_after_serialization_witness :
  let data := importRing "k" true in
  snd (pathKeyCreate data down) = Err "connection refused"
  /\ exists (e : Entity) (rest : list Entity) (buf : Buffer),
       ReadArmoredKeyRing (data_key data) = inr (e :: rest)
       /\ serializePrivateWithoutSigning ([] : Buffer) e = (buf, None).
Proof.
  intros data.
  split; [vm_compute; reflexivity |].
  apply (import_error_after_serialization data down "connection refused");
    [reflexivity | vm_compute; reflexivity].
Defined.

Lemma import_ignores_identity_witness :
  pathKeyCreate (request "k" (armored ring2) false 1024) emptyWorld
  = pathKeyCreate (importRing "k" true) emptyWorld.
Proof.
  apply (import_ignores_identity (importRing "k" true)
           (request "k" (armored ring2) false 1024) emptyWorld);
    reflexivity.
Defined.

Lemma generate_ignores_key_witness :
  pathKeyCreate (request "k" (armored ring2) true 2048) emptyWorld
  = pathKeyCreate (request "k" "" true 2048) emptyWorld.
Proof.
  apply (generate_ignores_key (request "k" "" true 2048)
           (request "k" (armored ring2) true 2048) emptyWorld);
    reflexivity.
Defined.

Lemma default_request_generates_witness :
  data_generate (fieldData (nameOnly "k")) = true
  /\ data_key_bits (fieldData (nameOnly "k")) = 2048
  /\ exists cs, calls (fst (pathKeyCreate (fieldData (nameOnly "k")) emptyWorld))
                = calls emptyWorld ++ CallNewEntity 2048 :: cs.
Proof.
  apply (default_request_generates (nameOnly "k") emptyWorld); reflexivity.
Defined.

Lemma key_without_generate_ignored_witness :
  pathKeyCreate (fieldData (nameAndKey "k" (armored ring2))) emptyWorld
  = pathKeyCreate (fieldData (nameOnly "k")) emptyWorld.
Proof.
  apply (key_without_generate_ignored (nameOnly "k")
           (Some (armored ring2)) emptyWorld).
  reflexivity.
Defined.

Lemma read_never_error_response_witness :
  let data := request "k" "" true 2048 in
  snd (pathKeyRead data down) = Err "connection refused"
  /\ snd (pathKeyRead data (holding "k" [Byte.x02]))
     = Err "unexpected end of JSON input"
  /\ snd (pathKeyRead data (stored "k" true [Byte.x00]))
     = Err "openpgp: invalid data: tag byte does not have MSB set"
  /\ Brittle.readStored "k" [Byte.x41] = Err Brittle.errBadAlgorithm.
Proof.
  intros data.
  split; [|split; [|split]].
  - apply (proj1 (read_never_error_response data down)). reflexivity.
  - apply (proj1 (proj2 (read_never_error_response data (holding "k" [Byte.x02])))
             {| Key := "key/k"; Value := [Byte.x02] |});
      vm_compute; reflexivity.
  - apply (proj1 (proj2 (proj2
             (read_never_error_response data (stored "k" true [Byte.x00]))))
             {| Key := "key/k"; Value := [Byte.x01; Byte.x00] |}
             {| SerializedKey := [Byte.x00]; Exportable := true |});
      vm_compute; reflexivity.
  - apply (proj1 (proj2 (proj2 (proj2
             (@read_never_error_response Brittle.packets Brittle.openpgp json
                InmemStorage Inmem_Storage data (stored "k" true [Byte.x41])))))
             {| Key := "key/k"; Value := [Byte.x01; Byte.x41] |}
             {| SerializedKey := [Byte.x41]; Exportable := true |}
             (Brittle.entityOf Byte.x41) [] []);
      vm_compute; reflexivity.
Defined.

Lemma create_then_key_witness :
  let data := importRing "k" true in
  snd (pathKeyCreate data emptyWorld) = Ok None
  /\ exists buf,
       keyMaterial data = Some buf
       /\ snd (key "k" (fst (pathKeyCreate data emptyWorld)))
          = Ok (Some {| SerializedKey := buf; Exportable := true |}).
Proof.
  intros data.
  split; [vm_compute; reflexivity |].
  apply (create_then_key data emptyWorld).
  - intros [k [|]] value; simpl; intros Henc; injection Henc as <-;
      reflexivity.
  - vm_compute; reflexivity.
Defined.

Lemma create_frame_witness :
  let data := importRing "k" true in
  let data' := request "other" "" true 2048 in
  let w := stored "other" false ring2 in
  snd (pathKeyRead data' (fst (pathKeyCreate data w))) = snd (pathKeyRead data' w).
Proof.
  intros data data' w.
  apply (create_frame data data' w). discriminate.
Defined.

Lemma delete_frame_witness :
  let data := request "k" "" true 2048 in
  let data' := request "other" "" true 2048 in
  let w := stored "other" false ring2 in
  snd (pathKeyRead data' (fst (pathKeyDelete data w))) = snd (pathKeyRead data' w).
Proof.
  intros data data' w.
  apply (delete_frame data data' w). discriminate.
Defined.


End MoreWitnesses.

(** ** List *)

Section ListFacts.
Context `{OpenPGP} `{JSONCodec}.

Implicit Types (data : FieldData) (w : World InmemStorage).

Lemma stripPrefix_Some (p s r : string) :
  stripPrefix p s = Some r <-> s = p +:+ r.
Proof.
  revert s; induction p as [|a p IH]; intros s; simpl.
  { split; [by intros [= ->] | by intros ->]. }
  destruct s as [|b s]; first done.
  case_bool_decide as Hab.
  - subst b. rewrite IH. split; [by intros -> | by intros [= ->]].
  - split; first done. intros [= -> _]. by destruct Hab.
Qed.

Lemma listedKeys_ListResponse (keys : list string) :
  listedKeys (Ok (ListResponse keys)) = keys.
Proof. by destruct keys. Qed.

Lemma pathKeyList_Inmem w :
  pathKeyList w
  = (w, Ok (ListResponse
       (merge_sort string_le
          (omap (stripPrefix "key/") (fst <$> map_to_list (entries (storage w))))))).
Proof. reflexivity. Qed.

Lemma listed_stored w (name : string) :
  (name ∈ listedKeys (snd (pathKeyList w)))
  <-> is_Some (entries (storage w) !! ("key/" +:+ name)).
Proof.
  rewrite pathKeyList_Inmem; cbn [fst snd].
  rewrite listedKeys_ListResponse, merge_sort_Permutation, list_elem_of_omap.
  split.
  - intros (k & Hk & Hstrip). apply stripPrefix_Some in Hstrip as ->.
    apply list_elem_of_fmap in Hk as ([k v] & -> & Hkv).
    apply elem_of_map_to_list in Hkv. simpl. by eauto.
  - intros [v Hv]. exists ("key/" +:+ name). split.
    + apply list_elem_of_fmap. exists ("key/" +:+ name, v).
      split; [done | by apply elem_of_map_to_list].
    + by apply stripPrefix_Some.
Qed.

(** X18.  The list handler answers the stored names: a name is among the
    keys it lists exactly when the storage holds a record under the
    prefixed name.  It leaves the storage as it was. *)
Theorem listed_iff_stored w (name : string) :
  (name ∈ listedKeys (snd (pathKeyList w))
   <-> is_Some (entries (storage w) !! ("key/" +:+ name)))
  /\ storage (fst (pathKeyList w)) = storage w.
Proof. split; [apply listed_stored | done]. Qed.

(** X19.  A name is listed after a create of it that ended well, and is
    not listed after a delete of it; the other names are listed after
    either as they were before. *)
Theorem list_follows_create_delete data w (name : string) :
  (snd (pathKeyCreate data w) = Ok None ->
     data_name data ∈ listedKeys (snd (pathKeyList (fst (pathKeyCreate data w)))))
  /\ (data_name data ∉ listedKeys (snd (pathKeyList (fst (pathKeyDelete data w)))))
  /\ (name <> data_name data ->
        ((name ∈ listedKeys (snd (pathKeyList (fst (pathKeyCreate data w)))))
         <-> (name ∈ listedKeys (snd (pathKeyList w))))
        /\ ((name ∈ listedKeys (snd (pathKeyList (fst (pathKeyDelete data w)))))
            <-> (name ∈ listedKeys (snd (pathKeyList w))))).
Proof.
  split; [|split].
  - intros Hok. apply listed_stored. rewrite create_entries.
    destruct (create_ok_record data w Hok) as [en Hrec]. rewrite Hrec.
    rewrite <- (recordToPut_Key _ _ Hrec). rewrite lookup_insert_eq. by eauto.
  - rewrite listed_stored.
    rewrite (delete_calls_storage data w _ eq_refl); simpl.
    rewrite lookup_delete_eq. by intros [v Hv].
  - intros Hname.
    assert (Hkey : "key/" +:+ data_name data <> "key/" +:+ name).
    { intros Heq. apply prefixed_inj in Heq. by destruct Hname. }
    rewrite !listed_stored. split.
    + rewrite create_entries.
      destruct (recordToPut data) as [en|] eqn:Hrec; last done.
      rewrite (recordToPut_Key _ _ Hrec). by rewrite lookup_insert_ne.
    + rewrite (delete_calls_storage data w _ eq_refl); simpl.
      by rewrite lookup_delete_ne.
Qed.

Lemma NoDup_omap_inj {A B : Type} (f : A -> option B) (l : list A) :
  (forall x y z, f x = Some z -> f y = Some z -> x = y) ->
  NoDup l -> NoDup (omap f l).
Proof.
  intros Hinj Hl. induction Hl as [|x l Hx Hl IH]; cbn [omap list_omap];
    first constructor.
  destruct (f x) as [z|] eqn:Hz; last done.
  constructor; last done.
  intros Hin. apply list_elem_of_omap in Hin as (y & Hy & Hz').
  by rewrite (Hinj _ _ _ Hz Hz') in Hx.
Qed.

(** On the in-memory storage the keys listed come in lexicographic
    order, each once. *)
Lemma listed_sorted w :
  Sorted string_le (listedKeys (snd (pathKeyList w)))
  /\ NoDup (listedKeys (snd (pathKeyList w))).
Proof.
  rewrite pathKeyList_Inmem; cbn [fst snd].
  rewrite listedKeys_ListResponse. split.
  - apply Sorted_merge_sort. intros a b. apply String.leb_total.
  - rewrite merge_sort_Permutation.
    apply NoDup_omap_inj; last apply NoDup_fst_map_to_list.
    intros k k' r Hr Hr'. apply stripPrefix_Some in Hr, Hr'. congruence.
Qed.

End ListFacts.

Section ListWitnesses.
Import Toy Samples.

Example list_after_two_creates_and_a_delete :
  let w1 := fst (pathKeyCreate (importRing "a" true) emptyWorld) in
  let w2 := fst (pathKeyCreate (importRing "b" false) w1) in
  let w3 := fst (pathKeyDelete (importRing "a" true) w2) in
  listedKeys (snd (pathKeyList w2)) = ["a"; "b"]
  /\ listedKeys (snd (pathKeyList w3)) = ["b"].
Proof. split; vm_compute; reflexivity. Qed.

Lemma listed_iff_stored_witness :
  is_Some (entries (storage (stored "k" true ring2)) !! "key/k")
  /\ "k" ∈ listedKeys (snd (pathKeyList (stored "k" true ring2))).
Proof.
  assert (Hstored : is_Some (entries (storage (stored "k" true ring2)) !! "key/k"))
    by (vm_compute; eauto).
  split; [exact Hstored |].
  apply (proj1 (listed_iff_stored (stored "k" true ring2) "k")).
  exact Hstored.
Defined.

Lemma list_follows_create_delete_witness :
  let data := importRing "k" true in
  snd (pathKeyCreate data emptyWorld) = Ok None
  /\ "k" ∈ listedKeys (snd (pathKeyList (fst (pathKeyCreate data emptyWorld))))
  /\ ("other" ∈ listedKeys (snd (pathKeyList (fst (pathKeyCreate data emptyWorld))))
      <-> "other" ∈ listedKeys (snd (pathKeyList emptyWorld))).
Proof.
  intros data.
  destruct (list_follows_create_delete data emptyWorld "other")
    as (Hcreate & _ & Hother).
  split; [vm_compute; reflexivity | split].
  - apply Hcreate. vm_compute; reflexivity.
  - apply Hother. discriminate.
Defined.

End ListWitnesses.
